(** * imaginify: connection cache, persistence actions, checkout and the
      transformation form, embedded from the TypeScript sources.

    - [Connection]   lib/database/mongoose.ts
    - [UserActions]  lib/actions/user.actions.ts
    - [TransactionActions]  lib/actions/transaction.actions.ts
    - [Form]         components/shared/TransformationForm.tsx *)

From Stdlib Require Import String DecimalString ZArith List Bool Arith Lia Floats.
From Stdlib Require Uint63.
Import ListNotations.
Open Scope string_scope.
Open Scope list_scope.
Set Warnings "-register-all".

(** ** JavaScript completions *)

(** [new Error(message)]. *)
Inductive Error : Type := MkError (message : string).

(** How a call ends: it returns a value or it throws. *)
Inductive Completion (A : Type) : Type :=
| Normal (a : A)
| Throw (e : Error).
Arguments Normal {A} a.
Arguments Throw {A} e.

(** ** lib/database/mongoose.ts *)
Module Connection.

(** The resolved value of [mongoose.connect]: an opaque driver handle. *)
Definition Mongoose := nat.
Definition PromiseId := nat.

(** The options object handed to [mongoose.connect]. *)
Record ConnectOptions := mkOptions { dbName : string; bufferCommands : bool }.

Inductive PromiseState : Type :=
| Pending
| Fulfilled (m : Mongoose)
| Rejected (e : Error).

(** [interface MongooseConnection]: [null] is [None]. *)
Record MongooseConnection := mkCached
  { conn : option Mongoose; promise : option PromiseId }.

(** Process-wide state: the environment variable read at module load,
    [global.mongoose], the promises allocated by the driver, and the
    calls made to [mongoose.connect]. *)
Record Process := mkProcess
  { MONGODB_URL : option string;
    cached : MongooseConnection;
    promises : list PromiseState;
    connectCalls : list (string * ConnectOptions) }.

(** [if (!cached) cached = global.mongoose = { conn: null, promise: null }] *)
Definition boot (url : option string) : Process :=
  mkProcess url (mkCached None None) [] [].

(** [!MONGODB_URL] holds for [undefined] and for the empty string. *)
Definition truthy (url : option string) : option string :=
  match url with
  | Some EmptyString => None
  | Some u => Some u
  | None => None
  end.

Definition configError : Error :=
  MkError "Please define the MONGODB_URL environment variable".

Definition connectOptions : ConnectOptions := mkOptions "imaginify" false.

(** [mongoose.connect(url, opts)]: the driver records the attempt and hands
    back a fresh pending promise. *)
Definition mongoose_connect (url : string) (opts : ConnectOptions)
    (s : Process) : Process * PromiseId :=
  (mkProcess (MONGODB_URL s) (cached s) (promises s ++ [Pending])
             (connectCalls s ++ [(url, opts)]),
   length (promises s)).

(** An [async] body either completes or is parked on a promise. *)
Inductive Suspended (A : Type) : Type :=
| Done (r : Completion A)
| Await (p : PromiseId).
Arguments Done {A} r.
Arguments Await {A} p.

(** [connectToDatabase], from its entry to [await cached.promise]. *)
Definition connectToDatabase_enter (s : Process)
    : Process * Suspended Mongoose :=
  match conn (cached s) with
  | Some c => (s, Done (Normal c))
  | None =>
      match truthy (MONGODB_URL s) with
      | None => (s, Done (Throw configError))
      | Some url =>
          let '(s1, p) :=
            match promise (cached s) with
            | Some p => (s, p)
            | None => mongoose_connect url connectOptions s
            end in
          (mkProcess (MONGODB_URL s1) (mkCached (conn (cached s1)) (Some p))
                     (promises s1) (connectCalls s1),
           Await p)
      end
  end.

(** [connectToDatabase], from the settled [await] to its [return]:
    [cached.conn = <value>; return cached.conn], or the rejection rethrown. *)
Definition connectToDatabase_resume (s : Process) (r : Completion Mongoose)
    : Process * Completion Mongoose :=
  match r with
  | Normal m =>
      (mkProcess (MONGODB_URL s) (mkCached (Some m) (promise (cached s)))
                 (promises s) (connectCalls s),
       Normal m)
  | Throw e => (s, Throw e)
  end.

Fixpoint set_nth {A} (n : nat) (x : A) (l : list A) : list A :=
  match l, n with
  | [], _ => []
  | _ :: t, O => x :: t
  | h :: t, S k => h :: set_nth k x t
  end.

(** The driver settles a pending promise; a settled one never changes. *)
Definition settle (p : PromiseId) (r : Completion Mongoose) (s : Process)
    : Process :=
  match nth_error (promises s) p with
  | Some Pending =>
      mkProcess (MONGODB_URL s) (cached s)
        (set_nth p (match r with Normal m => Fulfilled m | Throw e => Rejected e end)
                 (promises s))
        (connectCalls s)
  | _ => s
  end.

(** *** Callers interleaved on the event loop *)

Record System := mkSystem
  { proc : Process;
    nextCaller : nat;
    waiting : list (nat * PromiseId);
    finished : list (nat * Completion Mongoose) }.

Inductive Event : Type :=
| Call                                           (* a new caller enters *)
| Settle (p : PromiseId) (r : Completion Mongoose) (* the driver settles *)
| Resume (c : nat).                              (* a parked caller continues *)

Fixpoint lookup {A} (c : nat) (l : list (nat * A)) : option A :=
  match l with
  | [] => None
  | (k, v) :: t => if Nat.eqb k c then Some v else lookup c t
  end.

Fixpoint remove_first {A} (c : nat) (l : list (nat * A)) : list (nat * A) :=
  match l with
  | [] => []
  | (k, v) :: t => if Nat.eqb k c then t else (k, v) :: remove_first c t
  end.

Definition start (p : Process) : System := mkSystem p 0 [] [].

Definition step (sys : System) (ev : Event) : option System :=
  match ev with
  | Call =>
      let c := nextCaller sys in
      match connectToDatabase_enter (proc sys) with
      | (p', Done r) =>
          Some (mkSystem p' (S c) (waiting sys) (finished sys ++ [(c, r)]))
      | (p', Await pid) =>
          Some (mkSystem p' (S c) (waiting sys ++ [(c, pid)]) (finished sys))
      end
  | Settle pid r =>
      match nth_error (promises (proc sys)) pid with
      | Some Pending =>
          Some (mkSystem (settle pid r (proc sys)) (nextCaller sys)
                         (waiting sys) (finished sys))
      | _ => None
      end
  | Resume c =>
      match lookup c (waiting sys) with
      | Some pid =>
          let continue r :=
            let '(p', out) := connectToDatabase_resume (proc sys) r in
            Some (mkSystem p' (nextCaller sys) (remove_first c (waiting sys))
                           (finished sys ++ [(c, out)])) in
          match nth_error (promises (proc sys)) pid with
          | Some (Fulfilled m) => continue (Normal m)
          | Some (Rejected e) => continue (Throw e)
          | _ => None
          end
      | None => None
      end
  end.

Fixpoint run (sys : System) (evs : list Event) : option System :=
  match evs with
  | [] => Some sys
  | ev :: rest =>
      match step sys ev with
      | Some sys' => run sys' rest
      | None => None
      end
  end.

(** A single caller that awaits the call to its end.  [driver] is what the
    connection attempt settles to, should this call be the one waiting
    on a pending promise. *)
Definition connectToDatabase (driver : Completion Mongoose) (s : Process)
    : Process * Completion Mongoose :=
  match connectToDatabase_enter s with
  | (s1, Done r) => (s1, r)
  | (s1, Await p) =>
      let s2 := settle p driver s1 in
      match nth_error (promises s2) p with
      | Some (Fulfilled m) => connectToDatabase_resume s2 (Normal m)
      | Some (Rejected e) => connectToDatabase_resume s2 (Throw e)
      | _ => connectToDatabase_resume s2 driver
      end
  end.

End Connection.

(** ** The document store behind the Mongoose models *)
Module Store.

Definition ObjectId := string.

(** Modelled from the spec: the User schema (lib/database/models) is not
    among the sources.  The spec (section 3): the identity provider's subject
    id as unique key, display and profile fields, an integer credit
    balance; [_id] is the internal record id the actions filter on. *)
Record User := mkUser
  { _id : ObjectId;
    clerkId : string;
    email : string;
    username : string;
    photo : string;
    creditBalance : Z }.

(** Modelled from the spec: the parameter types of [createUser] and
    [updateUser] are declared outside the sources; they carry the profile
    fields of a User, and an update leaves ids and balance alone. *)
Record CreateUserParams := mkCreateUser
  { cu_clerkId : string; cu_email : string; cu_username : string;
    cu_photo : string }.

Record UpdateUserParams := mkUpdateUser
  { uu_username : string; uu_photo : string }.

(** Modelled from the spec: the Transaction schema (lib/database/models) is
    not among the sources.  The spec (section 3): plan name, credits granted,
    purchase amount, owning User reference, creation timestamp; [stripeId]
    is the provider's session id.  [amount] is a JavaScript number. *)
Record Transaction := mkTransaction
  { t_id : ObjectId;
    stripeId : string;
    t_amount : float;
    t_plan : string;
    t_credits : Z;
    buyer : ObjectId;
    createdAt : nat }.

(** What the driver hands back: the fields inside a model wrapper. *)
Record Document (A : Type) := mkDocument { fields : A; isNew : bool }.
Arguments mkDocument {A} fields isNew.
Arguments fields {A} d.
Arguments isNew {A} d.

(** What [JSON.stringify] followed by [JSON.parse] makes of a number:
    [NaN] and the infinities are written as [null], [-0] is written as [0],
    every other number comes back as it was. *)
Definition JSON_number (x : float) : option float :=
  if PrimFloat.is_nan x || PrimFloat.is_infinity x then None
  else if PrimFloat.is_zero x then Some PrimFloat.zero
  else Some x.

(** A Transaction as JSON hands it back: [amount] may have become [null]. *)
Record TransactionJSON := mkTransactionJSON
  { j_id : ObjectId;
    j_stripeId : string;
    j_amount : option float;
    j_plan : string;
    j_credits : Z;
    j_buyer : ObjectId;
    j_createdAt : nat }.

(** The plain value a document's fields serialize to. *)
Class Serializable (A : Type) : Type :=
  { Plain : Type; toJSON : A -> Plain }.

(** Strings and integer-valued numbers come back unchanged. *)
#[export] Instance User_serializable : Serializable User :=
  {| Plain := User; toJSON := fun u => u |}.

#[export] Instance Transaction_serializable : Serializable Transaction :=
  {| Plain := TransactionJSON;
     toJSON := fun t =>
       mkTransactionJSON (t_id t) (stripeId t) (JSON_number (t_amount t))
                         (t_plan t) (t_credits t) (buyer t) (createdAt t) |}.

(** [JSON.parse(JSON.stringify(doc))]: a fresh plain copy of the fields,
    without the driver's wrapper. *)
Definition JSON_roundtrip {A} `{Serializable A} (doc : Document A) : Plain :=
  toJSON (fields doc).

Inductive Model : Type := UserModel | TransactionModel.

(** The document operations the actions issue. *)
Inductive DocOp : Type :=
| Insert (m : Model)
| FindOne (m : Model)
| FindOneAndUpdate (m : Model)
| FindOneAndDelete (m : Model).

(** Everything a server action can touch.  [driver] is how the pending
    connection attempt will settle; [faults] scripts the store: each document
    operation consumes the head, and [Some e] makes that operation reject
    with [e] (network or validation failure). *)
Record World := mkWorld
  { process : Connection.Process;
    driver : Completion Connection.Mongoose;
    faults : list (option Error);
    users : list User;
    transactions : list Transaction;
    nextId : nat;
    defaultCredits : Z;
    opLog : list DocOp;
    handled : list Error;
    revalidated : list string }.

(** *** Actions: state passing with exceptions *)

Definition M (A : Type) : Type := World -> World * Completion A.

Definition ret {A} (a : A) : M A := fun w => (w, Normal a).
Definition throw {A} (e : Error) : M A := fun w => (w, Throw e).
Definition bind {A B} (m : M A) (k : A -> M B) : M B :=
  fun w => match m w with
           | (w1, Normal a) => k a w1
           | (w1, Throw e) => (w1, Throw e)
           end.
Definition try_catch {A} (body : M A) (handler : Error -> M A) : M A :=
  fun w => match body w with
           | (w1, Normal a) => (w1, Normal a)
           | (w1, Throw e) => handler e w1
           end.

Declare Scope action_scope.
Delimit Scope action_scope with action.
Notation "x <- m ;; k" := (bind m (fun x => k))
  (at level 61, m at next level, right associativity) : action_scope.
Notation "m ;; k" := (bind m (fun _ => k))
  (at level 61, right associativity) : action_scope.
Notation "'try' b 'catch' h" := (try_catch b h)
  (at level 62, b at level 61, h at level 61) : action_scope.

(** What an action hands to its caller: a value, [null], or nothing at all
    (the function fell off its end). *)
Inductive Ret (A : Type) : Type :=
| Value (a : A)
| Null
| Undefined.
Arguments Value {A} a.
Arguments Null {A}.
Arguments Undefined {A}.

Definition with_process (p : Connection.Process) (w : World) : World :=
  mkWorld p (driver w) (faults w) (users w) (transactions w) (nextId w)
          (defaultCredits w) (opLog w) (handled w) (revalidated w).

Definition with_users (us : list User) (w : World) : World :=
  mkWorld (process w) (driver w) (faults w) us (transactions w) (nextId w)
          (defaultCredits w) (opLog w) (handled w) (revalidated w).

(** [await connectToDatabase()] by the one request being served. *)
Definition connectToDatabase : M Connection.Mongoose :=
  fun w =>
    let '(p, r) := Connection.connectToDatabase (driver w) (process w) in
    (with_process p w, r).

(** One round trip to the store: it is logged, it consumes its scripted
    outcome, and it runs [body] unless the script says it rejects. *)
Definition docOp {A} (op : DocOp) (body : M A) : M A :=
  fun w =>
    let w1 := mkWorld (process w) (driver w) (tl (faults w)) (users w)
                      (transactions w) (nextId w) (defaultCredits w)
                      (opLog w ++ [op]) (handled w) (revalidated w) in
    match hd None (faults w) with
    | Some e => (w1, Throw e)
    | None => body w1
    end.

Definition objectId (n : nat) : ObjectId :=
  NilEmpty.string_of_uint (Nat.to_uint n).

Inductive UserFilter : Type :=
| ByClerkId (c : string)
| ById (i : ObjectId).

Definition matches (f : UserFilter) (u : User) : bool :=
  match f with
  | ByClerkId c => String.eqb (clerkId u) c
  | ById i => String.eqb (_id u) i
  end.

Inductive UserUpdate : Type :=
| SetFields (p : UpdateUserParams)
| Inc_creditBalance (d : Z).

(** *** Credits as JavaScript numbers

    Credit balances and deltas are integer-valued numbers, held here as
    integers.  A number carries 53 significant bits, so a sum is the exact
    integer only while it fits; beyond, it is rounded to the nearest number,
    ties to the even one.  (From 2^1024 on the program's sum is Infinity,
    which integers do not represent.) *)

(** [Number.MAX_SAFE_INTEGER] *)
Definition MAX_SAFE_INTEGER : Z := 2 ^ 53 - 1.

(** [Number.isSafeInteger(n)] *)
Definition isSafeInteger (n : Z) : bool :=
  (- MAX_SAFE_INTEGER <=? n)%Z && (n <=? MAX_SAFE_INTEGER)%Z.

(** The number nearest to the integer [n]. *)
Definition round_number (n : Z) : Z :=
  if (Z.abs n <? 2 ^ 53)%Z then n
  else
    let e := (Z.log2 (Z.abs n) - 52)%Z in
    let q := (Z.abs n / 2 ^ e)%Z in
    let r := (Z.abs n mod 2 ^ e)%Z in
    let half := (2 ^ (e - 1))%Z in
    let q' := if (r <? half)%Z then q
              else if (half <? r)%Z then (q + 1)%Z
              else if Z.even q then q else (q + 1)%Z in
    (Z.sgn n * (q' * 2 ^ e))%Z.

(** [x + y] on numbers. *)
Definition number_add (x y : Z) : Z := round_number (x + y).

Definition applyUpdate (up : UserUpdate) (u : User) : User :=
  match up with
  | SetFields p =>
      mkUser (_id u) (clerkId u) (email u) (uu_username p) (uu_photo p)
             (creditBalance u)
  | Inc_creditBalance d =>
      mkUser (_id u) (clerkId u) (email u) (username u) (photo u)
             (number_add (creditBalance u) d)
  end.

(** Replace the first document the filter selects. *)
Fixpoint updateFirst (f : UserFilter) (up : UserUpdate) (us : list User)
    : list User :=
  match us with
  | [] => []
  | u :: rest =>
      if matches f u then applyUpdate up u :: rest
      else u :: updateFirst f up rest
  end.

Fixpoint deleteFirst (f : UserFilter) (us : list User) : list User :=
  match us with
  | [] => []
  | u :: rest => if matches f u then rest else u :: deleteFirst f rest
  end.

(** [User.create(user)] *)
Definition User_create (user : CreateUserParams) : M (Document User) :=
  docOp (Insert UserModel) (fun w =>
    let u := mkUser (objectId (nextId w)) (cu_clerkId user) (cu_email user)
                    (cu_username user) (cu_photo user) (defaultCredits w) in
    (mkWorld (process w) (driver w) (faults w) (users w ++ [u])
             (transactions w) (S (nextId w)) (defaultCredits w) (opLog w)
             (handled w) (revalidated w),
     Normal (mkDocument u false))).

(** [User.findOne(filter)] *)
Definition User_findOne (f : UserFilter) : M (option (Document User)) :=
  docOp (FindOne UserModel) (fun w =>
    (w, Normal (option_map (fun u => mkDocument u false)
                           (find (matches f) (users w))))).

(** [User.findOneAndUpdate(filter, update, { new: true })] *)
Definition User_findOneAndUpdate (f : UserFilter) (up : UserUpdate)
    : M (option (Document User)) :=
  docOp (FindOneAndUpdate UserModel) (fun w =>
    (with_users (updateFirst f up (users w)) w,
     Normal (option_map (fun u => mkDocument (applyUpdate up u) false)
                        (find (matches f) (users w))))).

(** [User.findByIdAndDelete(id)] *)
Definition User_findByIdAndDelete (i : ObjectId)
    : M (option (Document User)) :=
  docOp (FindOneAndDelete UserModel) (fun w =>
    (with_users (deleteFirst (ById i) (users w)) w,
     Normal (option_map (fun u => mkDocument u false)
                        (find (matches (ById i)) (users w))))).

(** [Transaction.create(doc)] *)
Definition Transaction_create (doc : ObjectId -> Transaction)
    : M (Document Transaction) :=
  docOp (Insert TransactionModel) (fun w =>
    let t := doc (objectId (nextId w)) in
    (mkWorld (process w) (driver w) (faults w) (users w)
             (transactions w ++ [t]) (S (nextId w)) (defaultCredits w)
             (opLog w) (handled w) (revalidated w),
     Normal (mkDocument t false))).

(** [revalidatePath(path)] *)
Definition revalidatePath (path : string) : M unit :=
  fun w =>
    (mkWorld (process w) (driver w) (faults w) (users w) (transactions w)
             (nextId w) (defaultCredits w) (opLog w) (handled w)
             (revalidated w ++ [path]),
     Normal tt).

(** Modelled from the spec: [handleError] of lib/utils, which is not among
    the sources.  The spec (sections 4.2 and 7): every store-layer error goes
    through this one handler, which logs or normalizes it and does not
    rethrow, so the caller sees no return value and no thrown error. *)
Definition handleError (error : Error) : M unit :=
  fun w =>
    (mkWorld (process w) (driver w) (faults w) (users w) (transactions w)
             (nextId w) (defaultCredits w) (opLog w) (handled w ++ [error])
             (revalidated w),
     Normal tt).

End Store.

(** ** lib/actions/user.actions.ts *)
Module UserActions.
Import Store.
Local Open Scope action_scope.

Definition createUser (user : CreateUserParams) : M (Ret User) :=
  try (connectToDatabase ;;
       newUser <- User_create user ;;
       ret (Value (JSON_roundtrip newUser)))
  catch (fun error => handleError error ;; ret Undefined).

Definition getUserById (userId : string) : M (Ret User) :=
  try (connectToDatabase ;;
       user <- User_findOne (ByClerkId userId) ;;
       match user with
       | None => throw (MkError "User not found")
       | Some user => ret (Value (JSON_roundtrip user))
       end)
  catch (fun error => handleError error ;; ret Undefined).

Definition updateUser (clerkId : string) (user : UpdateUserParams)
    : M (Ret User) :=
  try (connectToDatabase ;;
       updatedUser <- User_findOneAndUpdate (ByClerkId clerkId) (SetFields user) ;;
       match updatedUser with
       | None => throw (MkError "User update failed")
       | Some updatedUser => ret (Value (JSON_roundtrip updatedUser))
       end)
  catch (fun error => handleError error ;; ret Undefined).

Definition deleteUser (clerkId : string) : M (Ret User) :=
  try (connectToDatabase ;;
       userToDelete <- User_findOne (ByClerkId clerkId) ;;
       match userToDelete with
       | None => throw (MkError "User not found")
       | Some userToDelete =>
           deletedUser <- User_findByIdAndDelete (_id (fields userToDelete)) ;;
           revalidatePath "/" ;;
           ret (match deletedUser with
                | Some deletedUser => Value (JSON_roundtrip deletedUser)
                | None => Null
                end)
       end)
  catch (fun error => handleError error ;; ret Undefined).

(** Another request, served between two awaits of this one, has deleted
    the documents with internal id [i]. *)
Definition deletedElsewhere (i : ObjectId) : M unit :=
  fun w =>
    (with_users (filter (fun u => negb (matches (ById i) u)) (users w)) w,
     Normal tt).

(** [deleteUser] with what other requests did between its lookup and its
    delete; [deleteUser] itself is the case where they did nothing. *)
Definition deleteUserAmid (others : ObjectId -> M unit) (clerkId : string)
    : M (Ret User) :=
  try (connectToDatabase ;;
       userToDelete <- User_findOne (ByClerkId clerkId) ;;
       match userToDelete with
       | None => throw (MkError "User not found")
       | Some userToDelete =>
           others (_id (fields userToDelete)) ;;
           deletedUser <- User_findByIdAndDelete (_id (fields userToDelete)) ;;
           revalidatePath "/" ;;
           ret (match deletedUser with
                | Some deletedUser => Value (JSON_roundtrip deletedUser)
                | None => Null
                end)
       end)
  catch (fun error => handleError error ;; ret Undefined).

Definition updateCredits (userId : string) (creditFee : Z) : M (Ret User) :=
  try (connectToDatabase ;;
       updatedUserCredits <-
         User_findOneAndUpdate (ById userId) (Inc_creditBalance creditFee) ;;
       match updatedUserCredits with
       | None => throw (MkError "User credits update failed")
       | Some updatedUserCredits =>
           ret (Value (JSON_roundtrip updatedUserCredits))
       end)
  catch (fun error => handleError error ;; ret Undefined).

End UserActions.

(** ** lib/actions/transaction.actions.ts *)
Module TransactionActions.
Import Store.
Local Open Scope action_scope.

Record CheckoutTransactionParams := mkCheckout
  { plan : string; credits : Z; amount : float; buyerId : string }.

Record CreateTransactionParams := mkCreateTransaction
  { ct_stripeId : string; ct_amount : float; ct_credits : Z; ct_plan : string;
    ct_buyerId : string; ct_createdAt : nat }.

(** [process.env] as this file reads it. *)
Record Env := mkEnv
  { STRIPE_SECRET_KEY : option string; NEXT_PUBLIC_SERVER_URL : option string }.

Record PriceData := mkPriceData
  { currency : string; unit_amount : float; product_data_name : string }.

Record LineItem := mkLineItem { price_data : PriceData; quantity : Z }.

Inductive MetaValue : Type :=
| MStr (s : string)
| MNum (n : Z).

Record SessionCreateParams := mkSessionParams
  { line_items : list LineItem;
    metadata : list (string * MetaValue);
    mode : string;
    success_url : string;
    cancel_url : string }.

Record Session := mkSession { url : option string }.

(** The payment provider: [new Stripe(key).checkout.sessions.create]. *)
Definition Stripe := option string -> SessionCreateParams -> Completion Session.

(** [redirect(url)] never returns: the framework takes over. *)
Inductive Redirect : Type := RedirectTo (url : option string).

(** A template literal prints [undefined] for a missing variable. *)
Definition interpolate (v : option string) : string :=
  match v with
  | Some s => s
  | None => "undefined"
  end.

(** [Number(x)] of a number is that number. *)
Definition Number (x : float) : float := x.

(** The argument of [stripe.checkout.sessions.create]. *)
Definition sessionParams (env : Env) (transaction : CheckoutTransactionParams)
    : SessionCreateParams :=
  let amount := (Number (amount transaction) * 100)%float in
  mkSessionParams
    [ mkLineItem (mkPriceData "usd" amount (plan transaction)) 1 ]
    [ ("plan", MStr (plan transaction));
      ("credits", MNum (credits transaction));
      ("buyerId", MStr (buyerId transaction)) ]
    "payment"
    (interpolate (NEXT_PUBLIC_SERVER_URL env) ++ "/profile")%string
    (interpolate (NEXT_PUBLIC_SERVER_URL env) ++ "/")%string.

Definition await {A} (c : Completion A) : M A := fun w => (w, c).

Definition checkoutCredits (stripe : Stripe) (env : Env)
    (transaction : CheckoutTransactionParams) : M Redirect :=
  session <- await (stripe (STRIPE_SECRET_KEY env) (sessionParams env transaction)) ;;
  ret (RedirectTo (url session)).

Definition createTransaction (transaction : CreateTransactionParams)
    : M (Ret TransactionJSON) :=
  try (connectToDatabase ;;
       newTransaction <-
         Transaction_create (fun id =>
           mkTransaction id (ct_stripeId transaction) (ct_amount transaction)
                         (ct_plan transaction) (ct_credits transaction)
                         (ct_buyerId transaction) (ct_createdAt transaction)) ;;
       UserActions.updateCredits (ct_buyerId transaction) (ct_credits transaction) ;;
       ret (Value (JSON_roundtrip newTransaction)))
  catch (fun error => handleError error ;; ret Undefined).

End TransactionActions.

(** ** components/shared/TransformationForm.tsx *)
Module Form.

(** Plain JavaScript values as the configuration holds them. *)
Inductive value : Type :=
| VUndefined
| VNull
| VBool (b : bool)
| VNum (n : Z)
| VStr (s : string)
| VObj (fields : list (string * value)).

Definition Obj := list (string * value).

Fixpoint get_field (k : string) (o : Obj) : option value :=
  match o with
  | [] => None
  | (k', v) :: rest => if String.eqb k' k then Some v else get_field k rest
  end.

(** [o[k] = v]: an existing key keeps its place, a new one goes last. *)
Fixpoint set_field (k : string) (v : value) (o : Obj) : Obj :=
  match o with
  | [] => [(k, v)]
  | (k', v') :: rest =>
      if String.eqb k' k then (k', v) :: rest else (k', v') :: set_field k v rest
  end.

(** [null] and [undefined]: no value. *)
Definition absent (v : value) : bool :=
  match v with
  | VUndefined | VNull => true
  | _ => false
  end.

(** Modelled from the spec: [deepMergeObjects] of lib/utils, which is not
    among the sources.  The spec (section 4.6): the first argument, the
    pending configuration, is merged into the second, the committed one;
    pending wins on conflicting keys, objects merge recursively, and an
    explicit absence (no value) on the pending side is dropped rather than
    overwriting.  The configuration type has no array-valued parameter. *)
Fixpoint deepMergeObjects (obj1 obj2 : value) {struct obj1} : value :=
  match obj1 with
  | VUndefined | VNull => obj2
  | VObj pending =>
      match obj2 with
      | VObj committed =>
          VObj ((fix merge_into (l : Obj) (out : Obj) {struct l} : Obj :=
                   match l with
                   | [] => out
                   | (k, v) :: rest =>
                       merge_into rest
                         (match get_field k out with
                          | Some w => set_field k (deepMergeObjects v w) out
                          | None => if absent v then out else set_field k v out
                          end)
                   end) pending committed)
      | _ => obj1
      end
  | _ => obj1
  end.

(** The loop of [deepMergeObjects] over the pending keys, on its own. *)
Fixpoint merge_into (l : Obj) (out : Obj) : Obj :=
  match l with
  | [] => out
  | (k, v) :: rest =>
      merge_into rest
        (match get_field k out with
         | Some w => set_field k (deepMergeObjects v w) out
         | None => if absent v then out else set_field k v out
         end)
  end.

Fixpoint chars_from (i : nat) (s : string) : Obj :=
  match s with
  | EmptyString => []
  | String c rest =>
      (Store.objectId i, VStr (String c EmptyString)) :: chars_from (S i) rest
  end.

(** [{...v}]: the own enumerable properties of [v]. *)
Definition spread (v : value) : Obj :=
  match v with
  | VObj o => o
  | VStr s => chars_from 0 s
  | _ => []
  end.

(** [v?.[k]] on a state typed [Transformations | null]. *)
Definition prop (v : value) (k : string) : value :=
  match v with
  | VObj o => match get_field k o with Some x => x | None => VUndefined end
  | _ => VUndefined
  end.

Record Props := mkProps
  { action : string;
    data : value;
    userId : string;
    type : string;
    creditBalance : Z;
    config : value }.

(** The component's [useState] cells, the values handed to [field.onChange],
    and the [updateCredits] calls started through [startTransition]. *)
Record FormState := mkForm
  { image : value;
    newTransformation : value;
    isSubmitting : bool;
    isTransforming : bool;
    transformationConfig : value;
    fieldChanges : list string;
    transitions : list (string * Z) }.

Definition initialState (props : Props) : FormState :=
  mkForm (data props) VNull false false (config props) [] [].

Definition setNewTransformation (f : value -> value) (st : FormState)
    : FormState :=
  mkForm (image st) (f (newTransformation st)) (isSubmitting st)
         (isTransforming st) (transformationConfig st) (fieldChanges st)
         (transitions st).

(** [field.onChange(value)] of the form library. *)
Definition field_onChange (v : string) (st : FormState) : FormState :=
  mkForm (image st) (newTransformation st) (isSubmitting st)
         (isTransforming st) (transformationConfig st) (fieldChanges st ++ [v])
         (transitions st).

(** The page: React state, the debouncer's timer and the clock (ms). *)
Record Page := mkPage
  { react : FormState;
    timer : option (nat * (FormState -> FormState));
    now : nat }.

(** Modelled from the spec: [debounce] of lib/utils, which is not among the
    sources.  The spec (section 4.6): single-flight (one timer at most is
    pending, a new call replaces it), trailing-edge (the callback runs once
    the delay has passed after the last call), fixed delay. *)
Definition debounce (func : FormState -> FormState) (delay : nat) (pg : Page)
    : Page :=
  mkPage (react pg) (Some (now pg + delay, func)) (now pg).

(** The clock reaches [t]; a timer that is due fires. *)
Definition advance (t : nat) (pg : Page) : Page :=
  match timer pg with
  | Some (due, func) =>
      if (due <=? t)%nat then mkPage (func (react pg)) None (Nat.max (now pg) t)
      else mkPage (react pg) (timer pg) (Nat.max (now pg) t)
  | None => mkPage (react pg) None (Nat.max (now pg) t)
  end.

(** The arrow function [onInputChangeHandler] hands to [debounce]. *)
Definition inputCallback (fieldName value type : string)
    (onChangeField : string -> FormState -> FormState)
    : FormState -> FormState :=
  fun st =>
    onChangeField value
      (setNewTransformation
         (fun prevState =>
            VObj (set_field type
                    (VObj (set_field
                             (if String.eqb fieldName "prompt" then "prompt" else "to")
                             (VStr value)
                             (spread (prop prevState type))))
                    (spread prevState)))
         st).

Definition onInputChangeHandler (fieldName value type : string)
    (onChangeField : string -> FormState -> FormState) : Page -> Page :=
  debounce (inputCallback fieldName value type onChangeField) 1000.

(** Section parameter: [creditFee] of the constants module, which is not
    among the sources. *)
Section WithCreditFee.
Variable creditFee : Z.

Definition onTransformHandler (props : Props) (st : FormState) : FormState :=
  mkForm (image st) VNull (isSubmitting st) true
         (deepMergeObjects (newTransformation st) (transformationConfig st))
         (fieldChanges st)
         (transitions st ++ [(userId props, creditFee)]).

Inductive Element : Type :=
| InsufficientCreditsModal
| CustomField (name : string)
| TransformedImage
| Button (label : string) (disabled : bool)
| Div (className : string) (children : list Element).

Definition is_null (v : value) : bool :=
  match v with
  | VNull => true
  | _ => false
  end.

(** The children of the [<form>], in order; [cond && <X />] renders
    nothing when [cond] is false. *)
Definition render (props : Props) (st : FormState) : list Element :=
  (if creditBalance props <? Z.abs creditFee then [InsufficientCreditsModal] else [])%Z
  ++ [CustomField "title"]
  ++ (if String.eqb (type props) "fill" then [CustomField "aspectRatio"] else [])
  ++ (if String.eqb (type props) "remove" || String.eqb (type props) "recolor"
      then [Div "prompt-field"
              (CustomField "prompt"
               :: (if String.eqb (type props) "recolor"
                   then [CustomField "color"] else []))]
      else [])
  ++ [Div "media-uploader-field" [CustomField "publicId"; TransformedImage];
      Div "flex flex-col gap-4"
        [Button (if isTransforming st then "Transforming..." else "Apply Transformation")
                (isTransforming st || is_null (newTransformation st));
         Button (if isSubmitting st then "Submitting..." else "Save Image")
                (isSubmitting st)]].

End WithCreditFee.

(** One keystroke: the clock reaches [at_], then the handler runs. *)
Record Edit := mkEdit
  { at_ : nat; fieldName : string; value_ : string; type_ : string }.

Definition keystroke (pg : Page) (e : Edit) : Page :=
  onInputChangeHandler (fieldName e) (value_ e) (type_ e) field_onChange
    (advance (at_ e) pg).

Definition keystrokes (es : list Edit) (pg : Page) : Page :=
  fold_left keystroke es pg.

End Form.

(** ** Vocabulary of the statements below *)
Module Observe.
Import Connection Store.

(** The request can get hold of the connection. *)
Definition acquires (w : World) : bool :=
  match snd (connectToDatabase w) with
  | Normal _ => true
  | Throw _ => false
  end.

(** The store answers the next [n] document operations. *)
Definition answers (n : nat) (w : World) : bool :=
  forallb (fun f => match f with None => true | Some _ => false end)
          (firstn n (faults w)).

(** The balance [b], the delta [d] and their sum are all safe integers,
    so that the numbers' sum is the integers' sum. *)
Definition safe_sum (b d : Z) : bool :=
  isSafeInteger b && isSafeInteger d && isSafeInteger (b + d).

(** *** The connection cache *)

(** What holds of every state the event loop can reach from a fresh
    process: either no connection was ever attempted, or exactly one was,
    through promise 0, and everything cached or returned stems from it. *)
Inductive Inv (url : option string) (sys : System) : Prop :=
| Inv_idle :
    MONGODB_URL (proc sys) = url ->
    promises (proc sys) = [] ->
    connectCalls (proc sys) = [] ->
    cached (proc sys) = mkCached None None ->
    waiting sys = [] ->
    (forall c r, In (c, r) (finished sys) ->
                 truthy url = None /\ r = Throw configError) ->
    Inv url sys
| Inv_attempted (u : string) (st : PromiseState) :
    MONGODB_URL (proc sys) = url ->
    truthy url = Some u ->
    promises (proc sys) = [st] ->
    connectCalls (proc sys) = [(u, connectOptions)] ->
    promise (cached (proc sys)) = Some 0 ->
    (forall m, conn (cached (proc sys)) = Some m -> st = Fulfilled m) ->
    (forall c p, In (c, p) (waiting sys) -> p = 0) ->
    (forall c r, In (c, r) (finished sys) ->
                 match r with
                 | Normal m => st = Fulfilled m /\ conn (cached (proc sys)) = Some m
                 | Throw e => st = Rejected e
                 end) ->
    Inv url sys.

End Observe.

(** ** Sample inputs *)
Module Samples.
Import Connection Store.

Definition url : option string := Some "mongodb://db".

(** Two callers race for the first connection, a third comes later. *)
Definition race : list Event :=
  [Call; Call; Settle 0 (Normal 7); Resume 1; Resume 0; Call].

Definition after_race : System :=
  Eval vm_compute in
    match run (start (boot url)) race with
    | Some s => s
    | None => start (boot url)
    end.

Definition refused : Error := MkError "ECONNREFUSED".

(** The first attempt is refused; a second caller comes afterwards. *)
Definition outage : list Event :=
  [Call; Settle 0 (Throw refused); Resume 0; Call; Resume 1].

Definition after_outage : System :=
  Eval vm_compute in
    match run (start (boot url)) outage with
    | Some s => s
    | None => start (boot url)
    end.

Definition alice : User := mkUser "0" "clerk_1" "alice@example.org" "alice" "a.png" 10.

Definition world : World :=
  mkWorld (boot url) (Normal 7) [] [alice] [] 1 10 [] [] [].

(** The same world with a store that answers once and then fails. *)
Definition flaky : World :=
  mkWorld (boot url) (Normal 7) [None; Some (MkError "network")] [alice] []
          1 10 [] [] [].

(** [{remove: {prompt: "cat"}}] *)
Definition pending_cat : Form.value :=
  Form.VObj [("remove", Form.VObj [("prompt", Form.VStr "cat")])].

(** [{remove: {prompt: "dog", removeShadow: true}, recolor: {color: "red"}}] *)
Definition committed_dog : Form.value :=
  Form.VObj
    [("remove", Form.VObj [("prompt", Form.VStr "dog");
                           ("removeShadow", Form.VBool true)]);
     ("recolor", Form.VObj [("color", Form.VStr "red")])].

(** [{remove: {prompt: "cat", removeShadow: true}, recolor: {color: "red"}}] *)
Definition merged_cat : Form.value :=
  Form.VObj
    [("remove", Form.VObj [("prompt", Form.VStr "cat");
                           ("removeShadow", Form.VBool true)]);
     ("recolor", Form.VObj [("color", Form.VStr "red")])].

Definition props : Form.Props :=
  Form.mkProps "Add" Form.VNull "0" "remove" 10 Form.VNull.

(** A freshly mounted form at time 0. *)
Definition page : Form.Page :=
  Form.mkPage (Form.initialState props) None 0.

(** Five keystrokes in the prompt field, 100 ms apart. *)
Definition typing : list Form.Edit :=
  [Form.mkEdit 0 "prompt" "c" "remove";
   Form.mkEdit 100 "prompt" "ca" "remove";
   Form.mkEdit 200 "prompt" "cat" "remove";
   Form.mkEdit 300 "prompt" "cats" "remove";
   Form.mkEdit 400 "prompt" "cat" "remove"].

End Samples.

(** ** TransformationForm.tsx: the other handlers *)
Module Handlers.
Import Form.

(** JavaScript truthiness, as [if (x)] and [x && y] test it. *)
Definition truthy (v : value) : bool :=
  match v with
  | VUndefined | VNull => false
  | VBool b => b
  | VNum n => negb (n =? 0)%Z
  | VStr s => negb (String.eqb s "")
  | VObj _ => true
  end.

(** What a template literal prints for a value. *)
Definition toString (v : value) : string :=
  match v with
  | VUndefined => "undefined"
  | VNull => "null"
  | VBool true => "true"
  | VBool false => "false"
  | VNum n => NilEmpty.string_of_int (Z.to_int n)
  | VStr s => s
  | VObj _ => "[object Object]"
  end.

(** [v.k]: reading a property of [null] or [undefined] throws. *)
Definition member (v : value) (k : string) : Completion value :=
  match v with
  | VNull =>
      Throw (MkError ("TypeError: Cannot read properties of null (reading '"
                      ++ k ++ "')")%string)
  | VUndefined =>
      Throw (MkError ("TypeError: Cannot read properties of undefined (reading '"
                      ++ k ++ "')")%string)
  | _ => Normal (prop v k)
  end.

Definition setImage (f : value -> value) (st : FormState) : FormState :=
  mkForm (f (image st)) (newTransformation st) (isSubmitting st)
         (isTransforming st) (transformationConfig st) (fieldChanges st)
         (transitions st).

Definition setIsSubmitting (b : bool) (st : FormState) : FormState :=
  mkForm (image st) (newTransformation st) b (isTransforming st)
         (transformationConfig st) (fieldChanges st) (transitions st).

(** [disabled={isTransforming || newTransformation === null}] of the
    Apply Transformation button. *)
Definition applyDisabled (st : FormState) : bool :=
  isTransforming st || is_null (newTransformation st).

(** A click on the button: a disabled button does not call its handler. *)
Definition clickApply (creditFee : Z) (props : Props) (st : FormState)
    : FormState :=
  if applyDisabled st then st else onTransformHandler creditFee props st.

Fixpoint clicks (n : nat) (creditFee : Z) (props : Props) (st : FormState)
    : FormState :=
  match n with
  | O => st
  | S k => clicks k creditFee props (clickApply creditFee props st)
  end.

(** The names of the form fields an element puts on the page. *)
Fixpoint fieldNames (e : Element) : list string :=
  match e with
  | CustomField name => [name]
  | Div _ children => flat_map fieldNames children
  | _ => []
  end.

(** An entry of [aspectRatioOptions]. *)
Record ImageSize := mkImageSize
  { size_aspectRatio : string; size_label : string;
    size_width : Z; size_height : Z }.

Section WithConstants.
(** Section parameters: [aspectRatioOptions] and [transformationTypes[type].config]
    of the constants module, which is not among the sources.  The select
    offers exactly the keys of [aspectRatioOptions], so the lookup is total
    on [AspectRatioKey]. *)
Variable AspectRatioKey : Type.
Variable aspectRatioOptions : AspectRatioKey -> ImageSize.
Variable transformationType_config : value.

Definition onSelectFieldHandler (value : AspectRatioKey)
    (onChangeField : AspectRatioKey -> FormState -> FormState)
    (st : FormState) : FormState :=
  let imageSize := aspectRatioOptions value in
  onChangeField value
    (setNewTransformation (fun _ => transformationType_config)
       (setImage
          (fun prevImage =>
             VObj (set_field "height" (VNum (size_height imageSize))
                    (set_field "width" (VNum (size_width imageSize))
                      (set_field "aspectRatio" (VStr (size_aspectRatio imageSize))
                        (spread prevImage)))))
          st)).

End WithConstants.

(** The values the form hands to [onSubmit] once the schema accepted them;
    an optional field that was left out is [undefined]. *)
Record FormValues := mkValues
  { v_title : string;
    v_aspectRatio : value;
    v_color : value;
    v_prompt : value;
    v_publicId : string }.

(** What [onSubmit] does to the outside, in order. *)
Inductive Effect : Type :=
| AddImage (arg : value)
| UpdateImage (arg : value)
| FormReset
| RouterPush (url : string)
| ConsoleLog (error : Error).

(** The calls that save an image. *)
Definition isPersist (e : Effect) : bool :=
  match e with
  | AddImage _ | UpdateImage _ => true
  | _ => false
  end.

Record Submitted := mkSubmitted
  { state : FormState; effects : list Effect; outcome : Completion unit }.

Section WithServices.
(** Section parameters: [getCldImageUrl] of next-cloudinary and [addImage],
    [updateImage] of lib/actions/image.actions, none of them among the
    sources; each returns or throws. *)
Variable getCldImageUrl : Obj -> Completion string.
Variable addImage : value -> Completion value.
Variable updateImage : value -> Completion value.

(** [{ width: image?.width, height: image?.height, src: image?.publicId,
       ...transformationConfig }] *)
Definition cldOptions (st : FormState) : Obj :=
  fold_left (fun o kv => set_field (fst kv) (snd kv) o)
            (spread (transformationConfig st))
            [("width", prop (image st) "width");
             ("height", prop (image st) "height");
             ("src", prop (image st) "publicId")].

Definition imageData (props : Props) (st : FormState) (values : FormValues)
    (transformationUrl : string) : Obj :=
  [("title", VStr (v_title values));
   ("publicId", prop (image st) "publicId");
   ("transformationType", VStr (type props));
   ("width", prop (image st) "width");
   ("height", prop (image st) "height");
   ("config", transformationConfig st);
   ("secureURL", prop (image st) "secureURL");
   ("transformationURL", VStr transformationUrl);
   ("aspectRatio", v_aspectRatio values);
   ("prompt", v_prompt values);
   ("color", v_color values)].

Definition addArgument (props : Props) (data : Obj) : value :=
  VObj [("image", VObj data); ("userId", VStr (userId props));
        ("path", VStr "/")].

Definition updateArgument (props : Props) (data : Obj) (id : value) : value :=
  VObj [("image", VObj (set_field "_id" id data));
        ("userId", VStr (userId props));
        ("path", VStr ("/transformations/" ++ toString id)%string)].

(** The [if (action === 'Add')] block. *)
Definition submitAdd (props : Props) (st : FormState) (data : Obj)
    : FormState * list Effect :=
  if String.eqb (action props) "Add" then
    match addImage (addArgument props data) with
    | Normal newImage =>
        if truthy newImage
        then (setImage (fun _ => Form.data props) st,
              [AddImage (addArgument props data); FormReset;
               RouterPush ("/transformations/"
                           ++ toString (prop newImage "_id"))%string])
        else (st, [AddImage (addArgument props data)])
    | Throw error =>
        (st, [AddImage (addArgument props data); ConsoleLog error])
    end
  else (st, []).

(** The [if (action === 'Update')] block. *)
Definition submitUpdate (props : Props) (data : Obj) : list Effect :=
  if String.eqb (action props) "Update" then
    match member (Form.data props) "_id" with
    | Throw error => [ConsoleLog error]
    | Normal id =>
        match updateImage (updateArgument props data id) with
        | Normal updatedImage =>
            if truthy updatedImage
            then [UpdateImage (updateArgument props data id);
                  RouterPush ("/transformations/"
                              ++ toString (prop updatedImage "_id"))%string]
            else [UpdateImage (updateArgument props data id)]
        | Throw error =>
            [UpdateImage (updateArgument props data id); ConsoleLog error]
        end
    end
  else [].

Definition onSubmit (props : Props) (st : FormState) (values : FormValues)
    : Submitted :=
  let st1 := setIsSubmitting true st in
  if truthy (data props) || truthy (image st) then
    match getCldImageUrl (cldOptions st) with
    | Throw e => mkSubmitted st1 [] (Throw e)
    | Normal transformationUrl =>
        let data := imageData props st values transformationUrl in
        let '(st2, added) := submitAdd props st1 data in
        let updated := submitUpdate props data in
        mkSubmitted (setIsSubmitting false st2) (added ++ updated) (Normal tt)
    end
  else mkSubmitted (setIsSubmitting false st1) [] (Normal tt).

End WithServices.

End Handlers.

(** ** Whole-currency amounts as JavaScript numbers *)
Module Amounts.

(** The number a whole amount [z] is, for [0 <= z < 2^63]. *)
Definition dollars (z : Z) : float := PrimFloat.of_uint63 (Uint63.of_Z z).

(** [0; 1; ...; z - 1] *)
Definition upto (z : Z) : list Z := map Z.of_nat (seq 0 (Z.to_nat z)).

(** The unit amount computed for [z] is the number [100 * z], bit for bit. *)
Definition exact_cents (z : Z) : bool :=
  PrimFloat.Leibniz.eqb
    (TransactionActions.Number (dollars z) * 100)%float (dollars (100 * z)).

End Amounts.

(** ** More sample inputs *)
Module Fixtures.
Import Store.

Definition bob : User := mkUser "1" "clerk_2" "bob@example.org" "bob" "b.png" 3.

(** Two users, a connection string, a driver that connects, a store that
    answers. *)
Definition world : World :=
  mkWorld (Connection.boot Samples.url) (Normal 7) [] [Samples.alice; bob] []
          2 10 [] [] [].

Definition carol : CreateUserParams :=
  mkCreateUser "clerk_3" "carol@example.org" "carol" "c.png".

(** A form opened on an uploaded image. *)
Definition uploaded : Form.FormState :=
  Form.mkForm
    (Form.VObj [("publicId", Form.VStr "sample"); ("width", Form.VNum 800);
                ("height", Form.VNum 600);
                ("secureURL", Form.VStr "https://cdn.example/sample.png")])
    Form.VNull false false Form.VNull [] [].

Definition square : Handlers.ImageSize :=
  Handlers.mkImageSize "1:1" "Square (1:1)" 1000 1000.

Definition entered : Handlers.FormValues :=
  Handlers.mkValues "My picture" Form.VUndefined Form.VUndefined
                    (Form.VStr "cat") "sample".

(** An Update form that was given no record to update. *)
Definition update_props : Form.Props :=
  Form.mkProps "Update" Form.VNull "0" "remove" 10 Form.VNull.

(** Services that build a url and save what they are given under id 42. *)
Definition cld (o : Form.Obj) : Completion string :=
  Normal "https://cdn.example/t/sample.png".
Definition cld_broken (o : Form.Obj) : Completion string :=
  Throw (MkError "Cloud name not configured").
Definition save (arg : Form.value) : Completion Form.value :=
  Normal (Form.VObj [("_id", Form.VNum 42)]).

Definition purchase : TransactionActions.CreateTransactionParams :=
  TransactionActions.mkCreateTransaction "cs_test_2" 40 100 "Pro Package" "1" 0.

(** The same world with a store that rejects the first operation. *)
Definition down : World :=
  mkWorld (Connection.boot Samples.url) (Normal 7)
          [Some (MkError "network")] [Samples.alice; bob] [] 2 10 [] [] [].

End Fixtures.

(** * Properties *)

(** ** The connection cache *)
Section ConnectionCache.
Import Connection Observe.

Lemma lookup_In {A} (c : nat) (l : list (nat * A)) (v : A) :
  lookup c l = Some v -> In (c, v) l.
Proof.
  induction l as [|[k x] l IH]; simpl; [discriminate|].
  destruct (Nat.eqb_spec k c) as [->|Hne].
  - intros [= ->]. now left.
  - intro H. right. auto.
Qed.

Lemma In_remove_first {A} (c : nat) (l : list (nat * A)) (x : nat * A) :
  In x (remove_first c l) -> In x l.
Proof.
  induction l as [|[k v] l IH]; simpl; [tauto|].
  destruct (Nat.eqb k c); simpl; intuition.
Qed.

Lemma lookup_app_new {A} (c : nat) (l : list (nat * A)) (v : A) :
  (forall k x, In (k, x) l -> x = v) ->
  lookup c (l ++ [(c, v)]) = Some v.
Proof.
  induction l as [|[k x] l IH]; simpl; intro Hall.
  - now rewrite Nat.eqb_refl.
  - destruct (Nat.eqb k c).
    + f_equal. apply (Hall k). now left.
    + apply IH. intros k' x' Hin. apply (Hall k'). now right.
Qed.

Lemma Inv_start (url : option string) : Inv url (start (boot url)).
Proof. apply Inv_idle; simpl; auto; intros c r []. Qed.

Lemma nth_error_singleton {A} (x y : A) (n : nat) :
  nth_error [x] n = Some y -> n = 0 /\ x = y.
Proof.
  destruct n as [|[|n]]; simpl; try discriminate.
  intros [= ->]. auto.
Qed.

Lemma Inv_step (url : option string) (sys sys' : System) (ev : Event) :
  Inv url sys -> step sys ev = Some sys' -> Inv url sys'.
Proof.
  intros HI Hstep. destruct sys as [[murl [cn pr] ps calls] nc wt fin].
  destruct ev as [|pid r|c]; simpl in Hstep.
  - (* Call *)
    unfold connectToDatabase_enter in Hstep; simpl in Hstep.
    destruct cn as [m|].
    + injection Hstep as <-.
      destruct HI as [? ? ? Hc ? ?|u st Hu Ht Hp Hcalls Hpr Hconn Hw Hf];
        simpl in *; [discriminate|].
      eapply Inv_attempted; simpl; eauto.
      intros c r [Hin|[[= <- <-]|[]]]%in_app_or; [exact (Hf _ _ Hin)|].
      split; auto.
    + destruct HI as [Hu Hp Hcalls Hc Hw Hf|u st Hu Ht Hp Hcalls Hpr Hconn Hw Hf];
        simpl in *; subst murl.
      * injection Hc as ->.
        destruct (truthy url) as [u|] eqn:Ht; simpl in Hstep;
          injection Hstep as <-; subst.
        -- eapply Inv_attempted with (st := Pending); simpl; eauto.
           ++ discriminate.
           ++ intros c p [[= _ <-]|[]]; reflexivity.
           ++ intros c r Hin. destruct (Hf c r Hin); discriminate.
        -- apply Inv_idle; simpl; auto.
           intros c r [Hin|[[= <- <-]|[]]]%in_app_or; [|split; auto].
           split; [assumption|]. apply (Hf _ _ Hin).
      * rewrite Ht in Hstep. subst pr. simpl in Hstep.
        injection Hstep as <-.
        eapply Inv_attempted; simpl; eauto.
        intros c p [Hin|[[= _ <-]|[]]]%in_app_or; eauto.
  - (* Settle *)
    destruct (nth_error ps pid) as [[| |]|] eqn:Hnth; try discriminate.
    injection Hstep as <-.
    destruct HI as [? Hp ? ? ? ?|u st Hu Ht Hp Hcalls Hpr Hconn Hw Hf];
      simpl in *; subst ps.
    + destruct pid; discriminate.
    + apply nth_error_singleton in Hnth as [-> ->].
      unfold settle; simpl.
      eapply Inv_attempted; simpl; eauto.
      * intros m Hm. specialize (Hconn m Hm). discriminate.
      * intros c r' Hin. specialize (Hf c r' Hin).
        destruct r'; [destruct Hf|]; discriminate.
  - (* Resume *)
    destruct (lookup c wt) as [pid|] eqn:Hl; [|discriminate].
    apply lookup_In in Hl.
    destruct HI as [? ? ? ? Hw ?|u st Hu Ht Hp Hcalls Hpr Hconn Hw Hf];
      simpl in *; [subst wt; destruct Hl|].
    rewrite (Hw c pid Hl) in Hstep. subst ps. simpl in Hstep.
    destruct st as [|m|e]; [discriminate| |]; simpl in Hstep;
      injection Hstep as <-.
    + eapply Inv_attempted with (st := Fulfilled m); simpl; eauto.
      * intros m' [= ->]. reflexivity.
      * intros c' p Hin. apply In_remove_first in Hin. eauto.
      * intros c' r [Hin|[[= <- <-]|[]]]%in_app_or; [|split; reflexivity].
        specialize (Hf c' r Hin). destruct r; auto.
        destruct Hf as [[= ->] _]. auto.
    + eapply Inv_attempted with (st := Rejected e); simpl; eauto.
      * intros c' p Hin. apply In_remove_first in Hin. eauto.
      * intros c' r [Hin|[[= <- <-]|[]]]%in_app_or; [|reflexivity].
        exact (Hf _ _ Hin).
Qed.

Lemma Inv_run (url : option string) (evs : list Event) (sys sys' : System) :
  Inv url sys -> run sys evs = Some sys' -> Inv url sys'.
Proof.
  revert sys. induction evs as [|ev evs IH]; simpl; intros sys HI Hrun.
  - now injection Hrun as <-.
  - destruct (step sys ev) as [s1|] eqn:Hs; [|discriminate].
    eauto using Inv_step.
Qed.

(** A slot of the cache that holds a value keeps that very value. *)
Lemma step_cached_mono (url : option string) (sys sys' : System) (ev : Event) :
  Inv url sys -> step sys ev = Some sys' ->
  (forall p, promise (cached (proc sys)) = Some p ->
             promise (cached (proc sys')) = Some p) /\
  (forall m, conn (cached (proc sys)) = Some m ->
             conn (cached (proc sys')) = Some m).
Proof.
  intros HI Hstep. destruct sys as [[murl [cn pr] ps calls] nc wt fin].
  destruct ev as [|pid r|c]; simpl in Hstep.
  - unfold connectToDatabase_enter in Hstep; simpl in Hstep.
    destruct cn as [m|]; [injection Hstep as <-; simpl; auto|].
    destruct (truthy murl) as [u|]; [|injection Hstep as <-; simpl; auto].
    destruct pr as [p|]; simpl in Hstep; injection Hstep as <-; simpl;
      split; intros; congruence.
  - destruct (nth_error ps pid) as [[| |]|]; try discriminate.
    injection Hstep as <-. unfold settle; simpl.
    destruct (nth_error ps pid) as [[| |]|]; simpl; auto.
  - destruct (lookup c wt) as [pid|] eqn:Hl; [|discriminate].
    apply lookup_In in Hl.
    destruct HI as [? ? ? ? Hw ?|u st Hu Ht Hp Hcalls Hpr Hconn Hw Hf];
      simpl in *; [subst wt; destruct Hl|].
    rewrite (Hw c pid Hl) in Hstep. subst ps. simpl in Hstep.
    destruct st as [|m|e]; [discriminate| |]; simpl in Hstep;
      injection Hstep as <-; simpl; split; auto.
    intros m' Hm'. specialize (Hconn m' Hm'). congruence.
Qed.

Lemma run_cached_mono (url : option string) (evs : list Event)
    (sys sys' : System) :
  Inv url sys -> run sys evs = Some sys' ->
  (forall p, promise (cached (proc sys)) = Some p ->
             promise (cached (proc sys')) = Some p) /\
  (forall m, conn (cached (proc sys)) = Some m ->
             conn (cached (proc sys')) = Some m).
Proof.
  revert sys. induction evs as [|ev evs IH]; simpl; intros sys HI Hrun.
  - injection Hrun as <-. auto.
  - destruct (step sys ev) as [s1|] eqn:Hs; [|discriminate].
    destruct (step_cached_mono _ _ _ _ HI Hs) as [Hp Hc].
    destruct (IH s1 (Inv_step _ _ _ _ HI Hs) Hrun) as [Hp' Hc'].
    split; auto.
Qed.

Lemma run_app (evs1 evs2 : list Event) (sys sys' : System) :
  run sys (evs1 ++ evs2) = Some sys' ->
  exists mid, run sys evs1 = Some mid /\ run mid evs2 = Some sys'.
Proof.
  revert sys. induction evs1 as [|ev evs1 IH]; simpl; intros sys Hrun.
  - eauto.
  - destruct (step sys ev) as [s1|]; [|discriminate]. auto.
Qed.

(** Promises are never discarded. *)
Lemma step_promises_kept (url : option string) (sys sys' : System) (ev : Event) :
  Inv url sys -> step sys ev = Some sys' ->
  promises (proc sys) <> [] -> promises (proc sys') <> [].
Proof.
  intros HI Hstep Hne.
  destruct HI as [? Hp ? ? ? ?|u st Hu Ht Hp Hcalls Hpr Hconn Hw Hf];
    [contradiction|].
  destruct sys as [[murl [cn pr] ps calls] nc wt fin].
  simpl in *. subst.
  destruct ev as [|pid r|c]; simpl in Hstep.
  - unfold connectToDatabase_enter in Hstep; simpl in Hstep.
    destruct cn; [injection Hstep as <-; discriminate|].
    rewrite Ht in Hstep. simpl in Hstep. injection Hstep as <-. discriminate.
  - destruct pid as [|[|pid]]; simpl in Hstep; try discriminate.
    destruct st; try discriminate. injection Hstep as <-.
    unfold settle. simpl. discriminate.
  - destruct (lookup c wt) as [pid|]; [|discriminate].
    destruct pid as [|[|pid]]; simpl in Hstep; try discriminate.
    destruct st; try discriminate; simpl in Hstep; injection Hstep as <-;
      discriminate.
Qed.

(** With a connection string in place, a call leaves an attempt behind. *)
Lemma call_attempts (url : option string) (u : string) (sys sys' : System) :
  Inv url sys -> truthy url = Some u -> step sys Call = Some sys' ->
  promises (proc sys') <> [].
Proof.
  intros HI Ht Hstep.
  destruct HI as [Hu Hp Hcalls Hc Hw Hf|u' st Hu Ht' Hp Hcalls Hpr Hconn Hw Hf].
  - destruct sys as [[murl [cn pr] ps calls] nc wt fin]. simpl in *. subst.
    injection Hc as -> ->.
    unfold connectToDatabase_enter in Hstep; simpl in Hstep.
    rewrite Ht in Hstep. simpl in Hstep. injection Hstep as <-. discriminate.
  - eapply step_promises_kept; [|exact Hstep|rewrite Hp; discriminate].
    apply (Inv_attempted url sys u' st); assumption.
Qed.

Lemma run_call_attempts (url : option string) (u : string) (evs : list Event)
    (sys sys' : System) :
  Inv url sys -> truthy url = Some u -> run sys evs = Some sys' ->
  In Call evs \/ promises (proc sys) <> [] ->
  promises (proc sys') <> [].
Proof.
  revert sys. induction evs as [|ev evs IH]; simpl; intros sys HI Ht Hrun Hor.
  - injection Hrun as <-. destruct Hor as [[]|]; assumption.
  - destruct (step sys ev) as [s1|] eqn:Hs; [|discriminate].
    apply (IH s1 (Inv_step _ _ _ _ HI Hs) Ht Hrun).
    destruct Hor as [[->|Hin]|Hne].
    + right. eapply call_attempts; eauto.
    + now left.
    + right. eapply step_promises_kept; eauto.
Qed.

(** Once promise 0 is fulfilled, a new caller gets its value, at once or
    after one resumption, and the driver is not asked again. *)
Lemma call_after_fulfilled (url : option string) (sys : System) (m : Mongoose) :
  Inv url sys ->
  nth_error (promises (proc sys)) 0 = Some (Fulfilled m) ->
  exists sys',
    (step sys Call = Some sys' \/
     run sys [Call; Resume (nextCaller sys)] = Some sys') /\
    In (nextCaller sys, Normal m) (finished sys') /\
    connectCalls (proc sys') = connectCalls (proc sys) /\
    promises (proc sys') = promises (proc sys) /\
    conn (cached (proc sys')) = Some m.
Proof.
  intros HI Hnth.
  destruct HI as [? Hp ? ? ? ?|u st Hu Ht Hp Hcalls Hpr Hconn Hw Hf];
    [rewrite Hp in Hnth; discriminate|].
  rewrite Hp in Hnth. injection Hnth as ->.
  destruct sys as [[murl [cn pr] ps calls] nc wt fin]. simpl in *. subst.
  destruct cn as [c|].
  - specialize (Hconn c eq_refl). injection Hconn as <-.
    eexists. split; [left; reflexivity|]. simpl.
    repeat split; auto. apply in_or_app. right. now left.
  - eexists. split.
    + right. simpl. unfold connectToDatabase_enter. simpl. rewrite Ht. simpl.
      rewrite (lookup_app_new nc wt 0 Hw). simpl. reflexivity.
    + simpl. repeat split; auto. apply in_or_app. right. now left.
Qed.

(** Once promise 0 is fulfilled, a parked caller can continue and gets its
    value. *)
Lemma resume_after_fulfilled (url : option string) (sys : System)
    (m : Mongoose) (c : nat) (p : PromiseId) :
  Inv url sys ->
  nth_error (promises (proc sys)) 0 = Some (Fulfilled m) ->
  lookup c (waiting sys) = Some p ->
  exists sys',
    step sys (Resume c) = Some sys' /\
    finished sys' = finished sys ++ [(c, Normal m)] /\
    connectCalls (proc sys') = connectCalls (proc sys) /\
    conn (cached (proc sys')) = Some m.
Proof.
  intros HI Hnth Hl.
  destruct HI as [? Hp ? ? ? ?|u st Hu Ht Hp Hcalls Hpr Hconn Hw Hf];
    [rewrite Hp in Hnth; discriminate|].
  rewrite Hp in Hnth. injection Hnth as ->.
  pose proof (Hw c p (lookup_In c _ p Hl)) as ->.
  destruct sys as [[murl [cn pr] ps calls] nc wt fin]. simpl in *. subst.
  rewrite Hl. simpl. eexists. split; [reflexivity|]. simpl. auto.
Qed.

(** Without a connection string a call throws at once and touches nothing. *)
Lemma call_without_url (url : option string) (sys : System) :
  Inv url sys -> truthy url = None ->
  exists sys',
    step sys Call = Some sys' /\
    finished sys' = finished sys ++ [(nextCaller sys, Throw configError)] /\
    proc sys' = proc sys.
Proof.
  intros HI Ht.
  destruct HI as [Hu Hp Hcalls Hc Hw Hf|u st Hu Ht' Hp Hcalls Hpr Hconn Hw Hf];
    [|congruence].
  destruct sys as [[murl [cn pr] ps calls] nc wt fin]. simpl in *. subst.
  injection Hc as -> ->.
  eexists. unfold connectToDatabase_enter. simpl. rewrite Ht.
  split; [reflexivity|]. simpl. auto.
Qed.

(** After a rejection nothing the event loop does changes the process. *)
Lemma rejected_step (url : option string) (sys sys' : System) (ev : Event)
    (e : Error) :
  Inv url sys ->
  nth_error (promises (proc sys)) 0 = Some (Rejected e) ->
  step sys ev = Some sys' -> proc sys' = proc sys.
Proof.
  intros HI Hnth Hstep.
  destruct HI as [? Hp ? ? ? ?|u st Hu Ht Hp Hcalls Hpr Hconn Hw Hf];
    [rewrite Hp in Hnth; discriminate|].
  rewrite Hp in Hnth. injection Hnth as ->.
  destruct sys as [[murl [cn pr] ps calls] nc wt fin]. simpl in *. subst.
  destruct cn as [c|]; [specialize (Hconn c eq_refl); discriminate|].
  destruct ev as [|pid r|c]; simpl in Hstep.
  - unfold connectToDatabase_enter in Hstep. simpl in Hstep.
    rewrite Ht in Hstep. simpl in Hstep. injection Hstep as <-. reflexivity.
  - destruct pid as [|[|pid]]; discriminate.
  - destruct (lookup c wt) as [pid|]; [|discriminate].
    destruct pid as [|[|pid]]; simpl in Hstep; try discriminate.
    injection Hstep as <-. reflexivity.
Qed.

Lemma rejected_run (url : option string) (evs : list Event)
    (sys sys' : System) (e : Error) :
  Inv url sys ->
  nth_error (promises (proc sys)) 0 = Some (Rejected e) ->
  run sys evs = Some sys' -> proc sys' = proc sys.
Proof.
  revert sys. induction evs as [|ev evs IH]; simpl; intros sys HI Hnth Hrun.
  - now injection Hrun as <-.
  - destruct (step sys ev) as [s1|] eqn:Hs; [|discriminate].
    pose proof (rejected_step _ _ _ _ _ HI Hnth Hs) as Heq.
    rewrite <- Heq. apply IH; auto.
    + eapply Inv_step; eauto.
    + now rewrite Heq.
Qed.

(** C7: a missing connection string makes connectToDatabase throw the
    configuration error; with one, whatever the interleaving of callers, the
    first call asks the driver for one connection with bufferCommands off and
    caches its promise, no later call asks again, every call that returns
    returns the handle the promise resolved to (which is then the cached
    one), a call made once the handle is there returns it without a new
    connection, and a cache slot that holds a value never changes it. *)
Theorem connectToDatabase_caches_one_connection
    (url : option string) (evs : list Event) (sys : System)
    (Hrun : run (start (boot url)) evs = Some sys) :
  (truthy url = None ->
     connectCalls (proc sys) = [] /\
     cached (proc sys) = mkCached None None /\
     waiting sys = [] /\
     (forall c r, In (c, r) (finished sys) -> r = Throw configError) /\
     exists sys',
       step sys Call = Some sys' /\
       finished sys' = finished sys ++ [(nextCaller sys, Throw configError)] /\
       proc sys' = proc sys) /\
  (forall u, truthy url = Some u ->
     (In Call evs ->
        connectCalls (proc sys) = [(u, mkOptions "imaginify" false)] /\
        promise (cached (proc sys)) = Some 0) /\
     (length (connectCalls (proc sys)) <= 1)%nat /\
     (forall c m, In (c, Normal m) (finished sys) ->
        conn (cached (proc sys)) = Some m /\
        nth_error (promises (proc sys)) 0 = Some (Fulfilled m)) /\
     (forall m, nth_error (promises (proc sys)) 0 = Some (Fulfilled m) ->
        exists sys',
          (step sys Call = Some sys' \/
           run sys [Call; Resume (nextCaller sys)] = Some sys') /\
          In (nextCaller sys, Normal m) (finished sys') /\
          connectCalls (proc sys') = connectCalls (proc sys) /\
          promises (proc sys') = promises (proc sys) /\
          conn (cached (proc sys')) = Some m) /\
     (forall m c p,
        nth_error (promises (proc sys)) 0 = Some (Fulfilled m) ->
        lookup c (waiting sys) = Some p ->
        exists sys',
          step sys (Resume c) = Some sys' /\
          finished sys' = finished sys ++ [(c, Normal m)] /\
          connectCalls (proc sys') = connectCalls (proc sys) /\
          conn (cached (proc sys')) = Some m)) /\
  (forall evs1 evs2 mid,
     evs = evs1 ++ evs2 -> run (start (boot url)) evs1 = Some mid ->
     (forall p, promise (cached (proc mid)) = Some p ->
                promise (cached (proc sys)) = Some p) /\
     (forall m, conn (cached (proc mid)) = Some m ->
                conn (cached (proc sys)) = Some m)).
Proof.
  pose proof (Inv_run url evs _ _ (Inv_start url) Hrun) as HI.
  split; [|split].
  - intro Ht.
    pose proof (call_without_url url sys HI Ht) as Hcall.
    destruct HI as [Hu Hp Hcalls Hc Hw Hf|u st Hu Ht' Hp Hcalls Hpr Hconn Hw Hf];
      [|congruence].
    repeat split; auto. intros c r Hin. apply (Hf c r Hin).
  - intros u Ht. split; [|split; [|split; [|split]]].
    + intro Hin.
      assert (Hne : promises (proc sys) <> []).
      { apply (run_call_attempts url u evs (start (boot url)) sys
                 (Inv_start url) Ht Hrun). now left. }
      destruct HI as [? Hp ? ? ? ?|u' st Hu Ht' Hp Hcalls Hpr Hconn Hw Hf];
        [contradiction|].
      split; [|assumption]. rewrite Hcalls.
      rewrite Ht in Ht'. injection Ht' as <-. reflexivity.
    + destruct HI as [? ? Hcalls ? ? ?|u' st Hu Ht' Hp Hcalls Hpr Hconn Hw Hf];
        rewrite Hcalls; simpl; lia.
    + intros c m Hin.
      destruct HI as [? ? ? ? ? Hf|u' st Hu Ht' Hp Hcalls Hpr Hconn Hw Hf].
      * destruct (Hf c _ Hin); congruence.
      * destruct (Hf c _ Hin) as [-> Hc]. rewrite Hp. auto.
    + intros m Hnth. apply (call_after_fulfilled url sys m HI Hnth).
    + intros m c p Hnth Hl.
      apply (resume_after_fulfilled url sys m c p HI Hnth Hl).
  - intros evs1 evs2 mid -> Hmid.
    apply run_app in Hrun as (mid' & Hmid' & Hrest).
    rewrite Hmid in Hmid'. injection Hmid' as <-.
    apply (run_cached_mono url evs2 mid sys); auto.
    apply (Inv_run url evs1 (start (boot url)) mid (Inv_start url) Hmid).
Qed.

(** C10: once the first connection attempt has been rejected, the rejected
    promise stays in the cache and the handle slot stays null; a later call
    parks on that same promise, is resumed with its rejection and throws it,
    and nothing any caller does afterwards changes the process state: no
    further connection is ever attempted. *)
Theorem connectToDatabase_rejection_stays_cached
    (url : option string) (evs : list Event) (sys : System) (e : Error)
    (Hrun : run (start (boot url)) evs = Some sys)
    (Hrej : nth_error (promises (proc sys)) 0 = Some (Rejected e)) :
  promise (cached (proc sys)) = Some 0 /\
  conn (cached (proc sys)) = None /\
  length (connectCalls (proc sys)) = 1%nat /\
  (exists s1 s2,
     step sys Call = Some s1 /\
     waiting s1 = waiting sys ++ [(nextCaller sys, 0)] /\
     step s1 (Resume (nextCaller sys)) = Some s2 /\
     finished s2 = finished sys ++ [(nextCaller sys, Throw e)] /\
     proc s1 = proc sys /\ proc s2 = proc sys) /\
  (forall evs' sys',
     run sys evs' = Some sys' ->
     proc sys' = proc sys /\
     forall c r, In (c, r) (finished sys') -> r = Throw e).
Proof.
  pose proof (Inv_run url evs _ _ (Inv_start url) Hrun) as HI.
  assert (Hlater : forall evs' sys',
             run sys evs' = Some sys' ->
             proc sys' = proc sys /\
             forall c r, In (c, r) (finished sys') -> r = Throw e).
  { intros evs' sys' Hrun'.
    pose proof (rejected_run url evs' sys sys' e HI Hrej Hrun') as Heq.
    split; [assumption|].
    pose proof (Inv_run url evs' sys sys' HI Hrun') as HI'.
    rewrite <- Heq in Hrej.
    destruct HI' as [? Hp ? ? ? ?|u st Hu Ht Hp Hcalls Hpr Hconn Hw Hf];
      [rewrite Hp in Hrej; discriminate|].
    rewrite Hp in Hrej. injection Hrej as ->.
    intros c r Hin. specialize (Hf c r Hin).
    destruct r; [destruct Hf; discriminate|congruence]. }
  destruct HI as [? Hp ? ? ? ?|u st Hu Ht Hp Hcalls Hpr Hconn Hw Hf];
    [rewrite Hp in Hrej; discriminate|].
  rewrite Hp in Hrej. injection Hrej as ->.
  assert (Hnone : conn (cached (proc sys)) = None).
  { destruct (conn (cached (proc sys))) as [c|] eqn:Hc; [|reflexivity].
    specialize (Hconn c eq_refl). discriminate. }
  split; [assumption|]. split; [assumption|].
  split; [rewrite Hcalls; reflexivity|]. split; [|exact Hlater].
  clear Hlater.
  destruct sys as [[murl [cn pr] ps calls] nc wt fin]. simpl in *. subst.
  do 2 eexists. unfold connectToDatabase_enter. simpl. rewrite Ht. simpl.
  split; [reflexivity|]. simpl. split; [reflexivity|].
  rewrite (lookup_app_new nc wt 0 Hw). simpl.
  split; [reflexivity|]. simpl. auto.
Qed.

(** Two callers race for the first connection and a third comes later:
    one connect call, the same handle for all three. *)
Lemma connectToDatabase_caches_one_connection_witness :
  run (start (boot Samples.url)) Samples.race = Some Samples.after_race /\
  connectCalls (proc Samples.after_race)
  = [("mongodb://db", mkOptions "imaginify" false)] /\
  finished Samples.after_race
  = [(1, Normal 7); (0, Normal 7); (2, Normal 7)] /\
  (forall c m, In (c, Normal m) (finished Samples.after_race) ->
     conn (cached (proc Samples.after_race)) = Some m /\
     nth_error (promises (proc Samples.after_race)) 0 = Some (Fulfilled m)).
Proof.
  destruct (connectToDatabase_caches_one_connection
              Samples.url Samples.race Samples.after_race eq_refl)
    as (_ & Hurl & _).
  destruct (Hurl "mongodb://db" eq_refl) as (Hfirst & _ & Hret & _ & _).
  split; [reflexivity|]. split; [|split; [reflexivity|exact Hret]].
  apply Hfirst. simpl. auto.
Defined.

(** A refused first attempt: both callers throw the refusal and the driver
    was asked once. *)
Lemma connectToDatabase_rejection_stays_cached_witness :
  run (start (boot Samples.url)) Samples.outage = Some Samples.after_outage /\
  nth_error (promises (proc Samples.after_outage)) 0
  = Some (Rejected Samples.refused) /\
  finished Samples.after_outage
  = [(0, Throw Samples.refused); (1, Throw Samples.refused)] /\
  conn (cached (proc Samples.after_outage)) = None /\
  length (connectCalls (proc Samples.after_outage)) = 1%nat.
Proof.
  destruct (connectToDatabase_rejection_stays_cached
              Samples.url Samples.outage Samples.after_outage Samples.refused
              eq_refl eq_refl)
    as (_ & Hconn & Hone & _).
  repeat split; try reflexivity; assumption.
Defined.

End ConnectionCache.

(** ** The persistence actions *)
Section Persistence.
Import Store UserActions TransactionActions Observe.

Lemma enter_done (s s1 : Connection.Process) (m : Connection.Mongoose) :
  Connection.connectToDatabase_enter s = (s1, Connection.Done (Normal m)) ->
  Connection.conn (Connection.cached s1) = Some m.
Proof.
  unfold Connection.connectToDatabase_enter.
  destruct (Connection.conn (Connection.cached s)) as [c|] eqn:Hc.
  - intros [= <- <-]. assumption.
  - destruct (Connection.truthy (Connection.MONGODB_URL s)) as [u|];
      [|discriminate].
    destruct (Connection.promise (Connection.cached s)); discriminate.
Qed.

Lemma connect_caches (d : Completion Connection.Mongoose)
    (s s' : Connection.Process) (m : Connection.Mongoose) :
  Connection.connectToDatabase d s = (s', Normal m) ->
  Connection.conn (Connection.cached s') = Some m.
Proof.
  unfold Connection.connectToDatabase.
  destruct (Connection.connectToDatabase_enter s) as [s1 [r|p]] eqn:He.
  - intros [= <- ->]. eapply enter_done; eassumption.
  - destruct (nth_error _ p) as [[| |]|]; simpl;
      try (destruct d; simpl); intros [= <- <-]; reflexivity.
Qed.

Lemma connect_cached (d : Completion Connection.Mongoose)
    (s : Connection.Process) (m : Connection.Mongoose) :
  Connection.conn (Connection.cached s) = Some m ->
  Connection.connectToDatabase d s = (s, Normal m).
Proof.
  unfold Connection.connectToDatabase, Connection.connectToDatabase_enter.
  intros ->. reflexivity.
Qed.

Lemma matches_applyUpdate (f : UserFilter) (up : UserUpdate) (u : User) :
  matches f (applyUpdate up u) = matches f u.
Proof. destruct f, up; reflexivity. Qed.

Lemma find_updateFirst (f : UserFilter) (up : UserUpdate) (us : list User) :
  find (matches f) (updateFirst f up us)
  = option_map (applyUpdate up) (find (matches f) us).
Proof.
  induction us as [|u us IH]; simpl; [reflexivity|].
  destruct (matches f u) eqn:Hm; simpl.
  - now rewrite matches_applyUpdate, Hm.
  - now rewrite Hm.
Qed.

Lemma updateFirst_none (f : UserFilter) (up : UserUpdate) (us : list User) :
  find (matches f) us = None -> updateFirst f up us = us.
Proof.
  induction us as [|u us IH]; simpl; [reflexivity|].
  destruct (matches f u); [discriminate|]. intro H. now rewrite IH.
Qed.

(** Incrementing one user's balance leaves every other id's document alone. *)
Lemma find_other_id (i j : ObjectId) (d : Z) (us : list User) :
  i <> j ->
  find (matches (ById j)) (updateFirst (ById i) (Inc_creditBalance d) us)
  = find (matches (ById j)) us.
Proof.
  intro Hne. induction us as [|u us IH]; simpl; [reflexivity|].
  destruct (String.eqb_spec (_id u) i) as [Hi|Hi]; simpl.
  - destruct (String.eqb_spec (_id u) j) as [Hj|Hj]; [congruence|reflexivity].
  - now rewrite IH.
Qed.

Lemma answers_head (n : nat) (w : World) :
  answers (S n) w = true -> hd None (faults w) = None.
Proof.
  unfold answers. destruct (faults w) as [|[e|] fs]; simpl; auto; discriminate.
Qed.

Lemma acquires_inv (w : World) :
  acquires w = true ->
  exists p m,
    Connection.connectToDatabase (driver w) (process w) = (p, Normal m) /\
    Connection.conn (Connection.cached p) = Some m.
Proof.
  unfold acquires, connectToDatabase.
  destruct (Connection.connectToDatabase (driver w) (process w)) as [p [m|e]] eqn:Hc;
    simpl; [|discriminate].
  intros _. exists p, m. split; [reflexivity|]. eapply connect_caches; eauto.
Qed.

Ltac step_action :=
  unfold try_catch, bind, ret, throw, handleError, revalidatePath,
    User_create, User_findOne, User_findOneAndUpdate, User_findByIdAndDelete,
    Transaction_create, docOp, connectToDatabase, with_process, with_users,
    JSON_roundtrip;
  simpl.

Lemma round_number_safe (n : Z) :
  isSafeInteger n = true -> round_number n = n.
Proof.
  unfold isSafeInteger, round_number, MAX_SAFE_INTEGER. intro H.
  apply andb_prop in H as [Hlo Hhi].
  apply Z.leb_le in Hlo, Hhi.
  destruct (Z.ltb_spec (Z.abs n) (2 ^ 53)) as [_|Hge]; [reflexivity|lia].
Qed.

Lemma number_add_safe (b d : Z) :
  safe_sum b d = true -> number_add b d = (b + d)%Z.
Proof.
  unfold safe_sum, number_add. intro H.
  apply andb_prop in H as [_ H]. now apply round_number_safe.
Qed.

(** The rounding of integers agrees with the machine's numbers: around
    2^53, 2^54 and 2^62 the nearest number to [n] is the one the conversion
    of [n] to a number gives, and sums of numbers are the rounded sums. *)
Lemma round_number_is_binary64 :
  forallb (fun n => PrimFloat.Leibniz.eqb (Amounts.dollars (round_number n))
                                          (Amounts.dollars n))
          (map (fun k => 2 ^ 53 - 5 + Z.of_nat k) (seq 0 40)
           ++ map (fun k => 3 * 2 ^ 54 - 20 + Z.of_nat k) (seq 0 60)
           ++ map (fun k => 2 ^ 62 - 900 + 3 * Z.of_nat k) (seq 0 300))%Z
  = true /\
  forallb (fun p => PrimFloat.Leibniz.eqb
                      (Amounts.dollars (fst p) + Amounts.dollars (snd p))%float
                      (Amounts.dollars (number_add (fst p) (snd p))))
          [(10, 9007199254740983); (2 ^ 53, 1); (2 ^ 53, 3);
           (2 ^ 53 - 1, 2 ^ 53 - 1); (2 ^ 53, 2 ^ 53 + 2);
           (2 ^ 60, 2 ^ 60 + 256); (5, 2 ^ 53 - 2); (40, 2)]%Z
  = true.
Proof. split; vm_compute; reflexivity. Qed.

(** C1, as the code has it: with the connection at hand and the store
    answering, updateCredits issues one find-one-and-update; for a user
    found under userId whose balance b, the delta d and b + d are safe
    integers, the stored balance becomes b + d, for positive and negative
    d alike, the updated record is what the call returns and no other id's
    document changes; when no user has that id the call returns no value
    and the users are as before. *)
Theorem updateCredits_adds_delta (w : World) (userId : string) (d : Z)
    (Hconn : acquires w = true) (Hok : answers 1 w = true)
    (Hsafe : forall u, find (matches (ById userId)) (users w) = Some u ->
                       safe_sum (creditBalance u) d = true) :
  let w' := fst (updateCredits userId d w) in
  let r := snd (updateCredits userId d w) in
  opLog w' = opLog w ++ [FindOneAndUpdate UserModel] /\
  match find (matches (ById userId)) (users w) with
  | Some u =>
      let u' := mkUser (_id u) (clerkId u) (email u) (username u) (photo u)
                       (creditBalance u + d) in
      r = Normal (Value u') /\
      find (matches (ById userId)) (users w') = Some u' /\
      (forall j, j <> userId ->
         find (matches (ById j)) (users w') = find (matches (ById j)) (users w))
  | None =>
      r = Normal Undefined /\ users w' = users w
  end.
Proof.
  destruct (acquires_inv w Hconn) as (p & m & Hc & _).
  pose proof (answers_head 0 w Hok) as Hhd.
  unfold updateCredits. step_action. rewrite Hc. simpl. rewrite Hhd. simpl.
  destruct (find (matches (ById userId)) (users w)) as [u|] eqn:Hfind; simpl.
  - rewrite (number_add_safe _ _ (Hsafe u eq_refl)).
    split; [reflexivity|]. split; [reflexivity|]. split.
    + rewrite find_updateFirst, Hfind. simpl.
      rewrite (number_add_safe _ _ (Hsafe u eq_refl)). reflexivity.
    + intros j Hj. apply find_other_id. congruence.
  - split; [reflexivity|]. split; [reflexivity|].
    apply updateFirst_none. assumption.
Qed.

(** Against C1 as stated: a balance of 10 and the integer delta
    9007199254740983 have the sum 9007199254740993, which no number holds;
    the stored balance is 9007199254740992. *)
Lemma updateCredits_rounds_unsafe_sum :
  acquires Samples.world = true /\ answers 1 Samples.world = true /\
  find (matches (ById "0")) (users Samples.world) = Some Samples.alice /\
  creditBalance Samples.alice = 10%Z /\
  isSafeInteger 9007199254740983 = true /\
  find (matches (ById "0"))
       (users (fst (updateCredits "0" 9007199254740983 Samples.world)))
  = Some (mkUser "0" "clerk_1" "alice@example.org" "alice" "a.png"
                 9007199254740992) /\
  (10 + 9007199254740983 <> 9007199254740992)%Z.
Proof.
  repeat split; try (vm_compute; reflexivity). lia.
Qed.

(** *** What each action does once the connection is at hand *)

Lemma createUser_run (w : World) (user : CreateUserParams) :
  acquires w = true ->
  let w' := fst (createUser user w) in
  let r := snd (createUser user w) in
  opLog w' = opLog w ++ [Insert UserModel] /\
  match hd None (faults w) with
  | None =>
      let u := mkUser (objectId (nextId w)) (cu_clerkId user) (cu_email user)
                      (cu_username user) (cu_photo user) (defaultCredits w) in
      r = Normal (Value (JSON_roundtrip (mkDocument u false))) /\
      users w' = users w ++ [u] /\ handled w' = handled w
  | Some e =>
      r = Normal Undefined /\ users w' = users w /\
      handled w' = handled w ++ [e]
  end.
Proof.
  intro Hconn. destruct (acquires_inv w Hconn) as (p & m & Hc & _).
  unfold createUser. step_action. rewrite Hc. simpl.
  destruct (hd None (faults w)); simpl; auto.
Qed.

Lemma getUserById_run (w : World) (userId : string) :
  acquires w = true ->
  let w' := fst (getUserById userId w) in
  let r := snd (getUserById userId w) in
  opLog w' = opLog w ++ [FindOne UserModel] /\
  users w' = users w /\
  match hd None (faults w), find (matches (ByClerkId userId)) (users w) with
  | None, Some u =>
      r = Normal (Value (JSON_roundtrip (mkDocument u false))) /\
      handled w' = handled w
  | None, None =>
      r = Normal Undefined /\
      handled w' = handled w ++ [MkError "User not found"]
  | Some e, _ =>
      r = Normal Undefined /\ handled w' = handled w ++ [e]
  end.
Proof.
  intro Hconn. destruct (acquires_inv w Hconn) as (p & m & Hc & _).
  unfold getUserById. step_action. rewrite Hc. simpl.
  destruct (hd None (faults w)); simpl; auto.
  destruct (find _ (users w)); simpl; auto.
Qed.

Lemma updateUser_run (w : World) (clerk : string) (user : UpdateUserParams) :
  acquires w = true ->
  let w' := fst (updateUser clerk user w) in
  let r := snd (updateUser clerk user w) in
  opLog w' = opLog w ++ [FindOneAndUpdate UserModel] /\
  match hd None (faults w), find (matches (ByClerkId clerk)) (users w) with
  | None, Some u =>
      r = Normal (Value (JSON_roundtrip
                           (mkDocument (applyUpdate (SetFields user) u) false))) /\
      users w' = updateFirst (ByClerkId clerk) (SetFields user) (users w) /\
      handled w' = handled w
  | None, None =>
      r = Normal Undefined /\ users w' = users w /\
      handled w' = handled w ++ [MkError "User update failed"]
  | Some e, _ =>
      r = Normal Undefined /\ users w' = users w /\
      handled w' = handled w ++ [e]
  end.
Proof.
  intro Hconn. destruct (acquires_inv w Hconn) as (p & m & Hc & _).
  unfold updateUser. step_action. rewrite Hc. simpl.
  destruct (hd None (faults w)); simpl; auto.
  destruct (find _ (users w)) eqn:Hf; simpl; auto.
  repeat split; auto. apply updateFirst_none. assumption.
Qed.

Lemma updateCredits_run (w : World) (userId : string) (d : Z) :
  acquires w = true ->
  let w' := fst (updateCredits userId d w) in
  let r := snd (updateCredits userId d w) in
  opLog w' = opLog w ++ [FindOneAndUpdate UserModel] /\
  transactions w' = transactions w /\
  match hd None (faults w), find (matches (ById userId)) (users w) with
  | None, Some u =>
      r = Normal (Value (JSON_roundtrip
                           (mkDocument (applyUpdate (Inc_creditBalance d) u) false))) /\
      users w' = updateFirst (ById userId) (Inc_creditBalance d) (users w) /\
      handled w' = handled w
  | None, None =>
      r = Normal Undefined /\ users w' = users w /\
      handled w' = handled w ++ [MkError "User credits update failed"]
  | Some e, _ =>
      r = Normal Undefined /\ users w' = users w /\
      handled w' = handled w ++ [e]
  end.
Proof.
  intro Hconn. destruct (acquires_inv w Hconn) as (p & m & Hc & _).
  unfold updateCredits. step_action. rewrite Hc. simpl.
  destruct (hd None (faults w)); simpl; auto.
  destruct (find _ (users w)) eqn:Hf; simpl; auto.
  repeat split; auto. apply updateFirst_none. assumption.
Qed.

Lemma find_some_matches (f : UserFilter) (us : list User) (u : User) :
  find (matches f) us = Some u -> In u us.
Proof. intro H. apply find_some in H. tauto. Qed.

Lemma find_by_own_id (us : list User) (u : User) :
  In u us -> exists u', find (matches (ById (_id u))) us = Some u'.
Proof.
  induction us as [|x us IH]; simpl; [tauto|].
  intros [->|Hin].
  - rewrite String.eqb_refl. eauto.
  - destruct (String.eqb (_id x) (_id u)); eauto.
Qed.

Lemma deleteUser_run (w : World) (clerk : string) :
  acquires w = true ->
  let w' := fst (deleteUser clerk w) in
  let r := snd (deleteUser clerk w) in
  match hd None (faults w), find (matches (ByClerkId clerk)) (users w) with
  | None, Some u =>
      opLog w' = opLog w ++ [FindOne UserModel; FindOneAndDelete UserModel] /\
      match hd None (tl (faults w)) with
      | None =>
          (exists gone,
             find (matches (ById (_id u))) (users w) = Some gone /\
             r = Normal (Value (JSON_roundtrip (mkDocument gone false)))) /\
          users w' = deleteFirst (ById (_id u)) (users w) /\
          handled w' = handled w /\
          revalidated w' = revalidated w ++ ["/"]
      | Some e =>
          r = Normal Undefined /\ users w' = users w /\
          handled w' = handled w ++ [e]
      end
  | None, None =>
      opLog w' = opLog w ++ [FindOne UserModel] /\
      r = Normal Undefined /\ users w' = users w /\
      handled w' = handled w ++ [MkError "User not found"]
  | Some e, _ =>
      opLog w' = opLog w ++ [FindOne UserModel] /\
      r = Normal Undefined /\ users w' = users w /\
      handled w' = handled w ++ [e]
  end.
Proof.
  intro Hconn. destruct (acquires_inv w Hconn) as (p & m & Hc & _).
  unfold deleteUser. step_action. rewrite Hc. simpl.
  destruct (hd None (faults w)); simpl; auto.
  destruct (find _ (users w)) as [u|] eqn:Hf; simpl; auto.
  rewrite <- app_assoc. simpl.
  destruct (hd None (tl (faults w))); simpl; auto.
  split; [reflexivity|].
  destruct (find_by_own_id (users w) u (find_some_matches _ _ _ Hf)) as [gone Hg].
  rewrite Hg. simpl. eauto 8.
Qed.

Lemma createTransaction_run (w : World) (t : CreateTransactionParams) :
  acquires w = true ->
  let w' := fst (createTransaction t w) in
  let r := snd (createTransaction t w) in
  let tx := mkTransaction (objectId (nextId w)) (ct_stripeId t) (ct_amount t)
                          (ct_plan t) (ct_credits t) (ct_buyerId t)
                          (ct_createdAt t) in
  match hd None (faults w) with
  | Some e =>
      opLog w' = opLog w ++ [Insert TransactionModel] /\
      r = Normal Undefined /\
      transactions w' = transactions w /\ users w' = users w /\
      handled w' = handled w ++ [e]
  | None =>
      opLog w' = opLog w ++ [Insert TransactionModel; FindOneAndUpdate UserModel] /\
      r = Normal (Value (JSON_roundtrip (mkDocument tx false))) /\
      transactions w' = transactions w ++ [tx] /\
      match hd None (tl (faults w)),
            find (matches (ById (ct_buyerId t))) (users w) with
      | None, Some u =>
          users w' = updateFirst (ById (ct_buyerId t))
                                 (Inc_creditBalance (ct_credits t)) (users w) /\
          handled w' = handled w
      | None, None =>
          users w' = users w /\
          handled w' = handled w ++ [MkError "User credits update failed"]
      | Some e, _ =>
          users w' = users w /\ handled w' = handled w ++ [e]
      end
  end.
Proof.
  intro Hconn. destruct (acquires_inv w Hconn) as (p & m & Hc & Hcached).
  unfold createTransaction, updateCredits. step_action. rewrite Hc. simpl.
  destruct (hd None (faults w)); simpl; auto.
  rewrite (connect_cached (driver w) p m Hcached). simpl.
  rewrite <- app_assoc. simpl.
  destruct (hd None (tl (faults w))); simpl; auto.
  destruct (find _ (users w)) eqn:Hf; simpl; auto.
  repeat split; auto. apply updateFirst_none. assumption.
Qed.

(** C3: createTransaction inserts the Transaction document first and calls
    the credit ledger second; when the insert went through and the ledger
    step then fails (the store rejects the update, or no user has the
    buyer's id), the Transaction document is in the store, every user's
    balance is as before, and exactly these two document operations were
    issued: nothing is undone and nothing is tried again. *)
Theorem createTransaction_not_atomic (w : World) (t : CreateTransactionParams)
    (Hconn : acquires w = true)
    (Hinsert : hd None (faults w) = None)
    (Hledger : (exists e, hd None (tl (faults w)) = Some e) \/
               find (matches (ById (ct_buyerId t))) (users w) = None) :
  let w' := fst (createTransaction t w) in
  let tx := mkTransaction (objectId (nextId w)) (ct_stripeId t) (ct_amount t)
                          (ct_plan t) (ct_credits t) (ct_buyerId t)
                          (ct_createdAt t) in
  opLog w' = opLog w ++ [Insert TransactionModel; FindOneAndUpdate UserModel] /\
  transactions w' = transactions w ++ [tx] /\
  users w' = users w /\
  (exists e, handled w' = handled w ++ [e]) /\
  snd (createTransaction t w)
  = Normal (Value (JSON_roundtrip (mkDocument tx false))).
Proof.
  pose proof (createTransaction_run w t Hconn) as H. simpl in H.
  rewrite Hinsert in H. destruct H as (Hlog & Hr & Htx & Hrest).
  simpl. repeat split; try assumption.
  - destruct Hledger as [[e He]|Hnone].
    + rewrite He in Hrest. tauto.
    + rewrite Hnone in Hrest. destruct (hd None (tl (faults w))); tauto.
  - destruct Hledger as [[e He]|Hnone].
    + rewrite He in Hrest. destruct Hrest. eauto.
    + rewrite Hnone in Hrest.
      destruct (hd None (tl (faults w))); destruct Hrest; eauto.
Qed.

Lemma getUserById_absorbs (w : World) (userId : string) :
  acquires w = false \/ answers 1 w = false \/
  find (matches (ByClerkId userId)) (users w) = None ->
  snd (getUserById userId w) = Normal Undefined /\
  users (fst (getUserById userId w)) = users w.
Proof.
  intro Hcase. destruct (acquires w) eqn:Hconn.
  - pose proof (getUserById_run w userId Hconn) as H. simpl in H.
    destruct H as (_ & Hu & H). split; [|assumption].
    destruct (hd None (faults w)) as [e|] eqn:Hhd; [tauto|].
    destruct Hcase as [?|[Ha|Hnone]]; [discriminate| |].
    + unfold answers in Ha. destruct (faults w) as [|[e|] fs]; simpl in *;
        discriminate.
    + rewrite Hnone in H. tauto.
  - clear Hcase. unfold acquires, connectToDatabase in Hconn.
    unfold getUserById. step_action.
    destruct (Connection.connectToDatabase (driver w) (process w)) as [p [m|e]];
      simpl in *; [discriminate|auto].
Qed.

(** C4: when no user carries the subject id, getUserById returns no value
    and throws nothing, whatever the state of the connection and the store;
    the users are untouched; with the connection at hand and the store
    answering, the error handed to the shared handler is the internal
    "User not found"; and a call that failed on the connection or on the
    store returns exactly the same thing, so the caller cannot tell. *)
Theorem getUserById_not_found_absorbed (w : World) (userId : string)
    (Hmiss : find (matches (ByClerkId userId)) (users w) = None) :
  let w' := fst (getUserById userId w) in
  snd (getUserById userId w) = Normal Undefined /\
  users w' = users w /\
  (acquires w = true -> answers 1 w = true ->
     handled w' = handled w ++ [MkError "User not found"]) /\
  (forall w2 : World,
     acquires w2 = false \/ answers 1 w2 = false ->
     snd (getUserById userId w2) = snd (getUserById userId w)).
Proof.
  simpl. destruct (getUserById_absorbs w userId) as [Hr Hu]; [tauto|].
  repeat split; try assumption.
  - intros Hconn Ha.
    pose proof (getUserById_run w userId Hconn) as H. simpl in H.
    rewrite (answers_head 0 w Ha), Hmiss in H. tauto.
  - intros w2 Hfail. rewrite Hr.
    apply (getUserById_absorbs w2 userId). tauto.
Qed.

(** A fee of -1 takes alice from 10 credits to 9. *)
Lemma updateCredits_adds_delta_witness :
  acquires Samples.world = true /\ answers 1 Samples.world = true /\
  find (matches (ById "0"))
       (users (fst (updateCredits "0" (-1) Samples.world)))
  = Some (mkUser "0" "clerk_1" "alice@example.org" "alice" "a.png" 9) /\
  snd (updateCredits "0" (-1) Samples.world)
  = Normal (Value (mkUser "0" "clerk_1" "alice@example.org" "alice" "a.png" 9)).
Proof.
  assert (Hsafe : forall u,
             find (matches (ById "0")) (users Samples.world) = Some u ->
             safe_sum (creditBalance u) (-1) = true).
  { intros u Hu. injection Hu as <-. reflexivity. }
  pose proof (updateCredits_adds_delta Samples.world "0" (-1) eq_refl eq_refl
                Hsafe) as H.
  cbv zeta in H. destruct H as (_ & H).
  change (find (matches (ById "0")) (users Samples.world))
    with (Some Samples.alice) in H.
  cbv beta iota zeta in H. destruct H as (Hr & Hfind & _).
  repeat split; try reflexivity; assumption.
Defined.

(** The store accepts the insert and rejects the ledger update: the
    purchase is recorded and alice keeps her 10 credits. *)
Lemma createTransaction_not_atomic_witness :
  let t := mkCreateTransaction "cs_test_1" 10 100 "Pro" "0" 0 in
  transactions (fst (createTransaction t Samples.flaky))
  = [mkTransaction "1" "cs_test_1" 10 "Pro" 100 "0" 0] /\
  users (fst (createTransaction t Samples.flaky)) = [Samples.alice].
Proof.
  destruct (createTransaction_not_atomic Samples.flaky
              (mkCreateTransaction "cs_test_1" 10 100 "Pro" "0" 0)
              eq_refl eq_refl
              (or_introl (ex_intro _ (MkError "network") eq_refl)))
    as (_ & Htx & Hus & _).
  split; assumption.
Defined.

(** Nobody has subject id clerk_9. *)
Lemma getUserById_not_found_absorbed_witness :
  snd (getUserById "clerk_9" Samples.world) = Normal Undefined /\
  handled (fst (getUserById "clerk_9" Samples.world))
  = [MkError "User not found"].
Proof.
  destruct (getUserById_not_found_absorbed Samples.world "clerk_9" eq_refl)
    as (Hr & _ & Hh & _).
  split; [exact Hr|]. exact (Hh eq_refl eq_refl).
Defined.

Lemma In_updateFirst (f : UserFilter) (up : UserUpdate) (us : list User)
    (u : User) :
  find (matches f) us = Some u -> In (applyUpdate up u) (updateFirst f up us).
Proof.
  induction us as [|x us IH]; simpl; [discriminate|].
  destruct (matches f x).
  - intros [= ->]. now left.
  - intro H. right. auto.
Qed.

Lemma find_deleted_elsewhere (i : ObjectId) (us : list User) :
  find (matches (ById i)) (filter (fun u => negb (matches (ById i) u)) us)
  = None.
Proof.
  induction us as [|x us IH]; simpl; [reflexivity|].
  destruct (String.eqb (_id x) i) eqn:E; simpl; [assumption|].
  now rewrite E.
Qed.

Lemma deleteUserAmid_alone (w : World) (clerk : string) :
  deleteUserAmid (fun _ => ret tt) clerk w = deleteUser clerk w.
Proof.
  unfold deleteUserAmid, deleteUser. step_action.
  destruct (Connection.connectToDatabase (driver w) (process w)) as [p [m|e]];
    simpl; [|reflexivity].
  destruct (hd None (faults w)); simpl; [reflexivity|].
  destruct (find _ (users w)); reflexivity.
Qed.

Lemma deleteUserAmid_raced (w : World) (clerk : string) (u : User) :
  acquires w = true -> answers 2 w = true ->
  find (matches (ByClerkId clerk)) (users w) = Some u ->
  let w' := fst (deleteUserAmid deletedElsewhere clerk w) in
  snd (deleteUserAmid deletedElsewhere clerk w) = Normal Null /\
  opLog w' = opLog w ++ [FindOne UserModel; FindOneAndDelete UserModel] /\
  handled w' = handled w /\
  revalidated w' = revalidated w ++ ["/"].
Proof.
  intros Hconn Hans Hfind.
  destruct (acquires_inv w Hconn) as (p & m & Hc & _).
  assert (H1 : hd None (faults w) = None /\ hd None (tl (faults w)) = None).
  { unfold answers in Hans.
    destruct (faults w) as [|[e|] [|[e'|] fs]]; simpl in *; auto; discriminate. }
  destruct H1 as [H1 H2].
  unfold deleteUserAmid, deletedElsewhere. step_action.
  rewrite Hc. simpl. rewrite H1. simpl. rewrite Hfind. simpl.
  rewrite H2. simpl. rewrite find_deleted_elsewhere. simpl.
  rewrite <- app_assoc. auto.
Qed.

(** C8, as the code has it.  With the connection at hand:
    createUser issues one insert and returns the JSON copy of the new user,
    or hands the store's error to the handler and returns nothing;
    getUserById issues one find-one and returns the JSON copy of the user
    found, or hands "User not found" or the store's error to the handler
    and returns nothing; updateUser and updateCredits issue one
    find-one-and-update and return the JSON copy of the updated user, or
    hand their own error or the store's to the handler and return nothing;
    deleteUser issues a find-one and, when that found the user, a
    find-one-and-delete after it, and returns the JSON copy of the deleted
    user, or null when the user was gone by then (deleted by another
    request in between), or hands an error to the handler and returns
    nothing; createTransaction issues an insert and, when that went
    through, the ledger's find-one-and-update, and returns the JSON copy of
    the inserted Transaction even when the ledger step failed, or hands the
    insert's error to the handler and returns nothing. *)
Theorem persistence_operations (w : World) (Hconn : acquires w = true) :
  (forall user,
     let w' := fst (createUser user w) in
     let r := snd (createUser user w) in
     opLog w' = opLog w ++ [Insert UserModel] /\
     match hd None (faults w) with
     | None =>
         let u := mkUser (objectId (nextId w)) (cu_clerkId user)
                         (cu_email user) (cu_username user) (cu_photo user)
                         (defaultCredits w) in
         r = Normal (Value (JSON_roundtrip (mkDocument u false))) /\
         users w' = users w ++ [u] /\ handled w' = handled w
     | Some e =>
         r = Normal Undefined /\ users w' = users w /\
         handled w' = handled w ++ [e]
     end) /\
  (forall userId,
     let w' := fst (getUserById userId w) in
     let r := snd (getUserById userId w) in
     opLog w' = opLog w ++ [FindOne UserModel] /\
     users w' = users w /\
     match hd None (faults w),
           find (matches (ByClerkId userId)) (users w) with
     | None, Some u =>
         r = Normal (Value (JSON_roundtrip (mkDocument u false))) /\
         handled w' = handled w
     | None, None =>
         r = Normal Undefined /\
         handled w' = handled w ++ [MkError "User not found"]
     | Some e, _ =>
         r = Normal Undefined /\ handled w' = handled w ++ [e]
     end) /\
  (forall clerk user,
     let w' := fst (updateUser clerk user w) in
     let r := snd (updateUser clerk user w) in
     opLog w' = opLog w ++ [FindOneAndUpdate UserModel] /\
     match hd None (faults w),
           find (matches (ByClerkId clerk)) (users w) with
     | None, Some u =>
         r = Normal (Value (JSON_roundtrip
                              (mkDocument (applyUpdate (SetFields user) u) false))) /\
         users w' = updateFirst (ByClerkId clerk) (SetFields user) (users w) /\
         handled w' = handled w
     | None, None =>
         r = Normal Undefined /\ users w' = users w /\
         handled w' = handled w ++ [MkError "User update failed"]
     | Some e, _ =>
         r = Normal Undefined /\ users w' = users w /\
         handled w' = handled w ++ [e]
     end) /\
  (forall userId d,
     let w' := fst (updateCredits userId d w) in
     let r := snd (updateCredits userId d w) in
     opLog w' = opLog w ++ [FindOneAndUpdate UserModel] /\
     transactions w' = transactions w /\
     match hd None (faults w), find (matches (ById userId)) (users w) with
     | None, Some u =>
         r = Normal (Value (JSON_roundtrip
                              (mkDocument
                                 (applyUpdate (Inc_creditBalance d) u) false))) /\
         users w' = updateFirst (ById userId) (Inc_creditBalance d) (users w) /\
         handled w' = handled w
     | None, None =>
         r = Normal Undefined /\ users w' = users w /\
         handled w' = handled w ++ [MkError "User credits update failed"]
     | Some e, _ =>
         r = Normal Undefined /\ users w' = users w /\
         handled w' = handled w ++ [e]
     end) /\
  (forall clerk,
     let w' := fst (deleteUser clerk w) in
     let r := snd (deleteUser clerk w) in
     deleteUserAmid (fun _ => ret tt) clerk w = deleteUser clerk w /\
     match hd None (faults w),
           find (matches (ByClerkId clerk)) (users w) with
     | None, Some u =>
         opLog w' = opLog w ++ [FindOne UserModel; FindOneAndDelete UserModel] /\
         match hd None (tl (faults w)) with
         | None =>
             (exists gone,
                find (matches (ById (_id u))) (users w) = Some gone /\
                r = Normal (Value (JSON_roundtrip (mkDocument gone false)))) /\
             users w' = deleteFirst (ById (_id u)) (users w) /\
             handled w' = handled w /\
             revalidated w' = revalidated w ++ ["/"] /\
             (let raced := deleteUserAmid deletedElsewhere clerk w in
              snd raced = Normal Null /\
              opLog (fst raced)
              = opLog w ++ [FindOne UserModel; FindOneAndDelete UserModel] /\
              handled (fst raced) = handled w /\
              revalidated (fst raced) = revalidated w ++ ["/"])
         | Some e =>
             r = Normal Undefined /\ users w' = users w /\
             handled w' = handled w ++ [e]
         end
     | None, None =>
         opLog w' = opLog w ++ [FindOne UserModel] /\
         r = Normal Undefined /\ users w' = users w /\
         handled w' = handled w ++ [MkError "User not found"]
     | Some e, _ =>
         opLog w' = opLog w ++ [FindOne UserModel] /\
         r = Normal Undefined /\ users w' = users w /\
         handled w' = handled w ++ [e]
     end) /\
  (forall t,
     let w' := fst (createTransaction t w) in
     let r := snd (createTransaction t w) in
     let tx := mkTransaction (objectId (nextId w)) (ct_stripeId t)
                             (ct_amount t) (ct_plan t) (ct_credits t)
                             (ct_buyerId t) (ct_createdAt t) in
     match hd None (faults w) with
     | Some e =>
         opLog w' = opLog w ++ [Insert TransactionModel] /\
         r = Normal Undefined /\
         transactions w' = transactions w /\ users w' = users w /\
         handled w' = handled w ++ [e]
     | None =>
         opLog w'
         = opLog w ++ [Insert TransactionModel; FindOneAndUpdate UserModel] /\
         r = Normal (Value (JSON_roundtrip (mkDocument tx false))) /\
         transactions w' = transactions w ++ [tx] /\
         match hd None (tl (faults w)),
               find (matches (ById (ct_buyerId t))) (users w) with
         | None, Some u =>
             users w' = updateFirst (ById (ct_buyerId t))
                                    (Inc_creditBalance (ct_credits t))
                                    (users w) /\
             handled w' = handled w
         | None, None =>
             users w' = users w /\
             handled w'
             = handled w ++ [MkError "User credits update failed"]
         | Some e, _ =>
             users w' = users w /\ handled w' = handled w ++ [e]
         end
     end).
Proof.
  split; [|split; [|split; [|split; [|split]]]].
  - intro user. apply (createUser_run w user Hconn).
  - intro userId. apply (getUserById_run w userId Hconn).
  - intros clerk user. apply (updateUser_run w clerk user Hconn).
  - intros userId d. apply (updateCredits_run w userId d Hconn).
  - intro clerk. cbv zeta. split; [apply deleteUserAmid_alone|].
    pose proof (deleteUser_run w clerk Hconn) as H. cbv zeta in H.
    destruct (hd None (faults w)) as [e|] eqn:H1; [exact H|].
    destruct (find (matches (ByClerkId clerk)) (users w)) as [u|] eqn:Hf;
      [|exact H].
    destruct H as (Hlog & H). split; [exact Hlog|].
    destruct (hd None (tl (faults w))) as [e|] eqn:H2; [exact H|].
    destruct H as (Hgone & Hus & Hh & Hrev).
    repeat split; try assumption;
      apply (deleteUserAmid_raced w clerk u Hconn); try assumption;
      unfold answers; destruct (faults w) as [|[e|] [|[e'|] fs]];
      simpl in *; try reflexivity; discriminate.
  - intro t. apply (createTransaction_run w t Hconn).
Qed.

(** On the sample world deleteUser issues two operations and returns the
    deleted user; had another request deleted her first, it returns null. *)
Lemma persistence_operations_witness :
  opLog (fst (deleteUser "clerk_1" Samples.world))
  = [FindOne UserModel; FindOneAndDelete UserModel] /\
  snd (deleteUserAmid deletedElsewhere "clerk_1" Samples.world) = Normal Null /\
  snd (getUserById "clerk_1" Samples.world) = Normal (Value Samples.alice).
Proof.
  destruct (persistence_operations Samples.world eq_refl)
    as (_ & Hget & _ & _ & Hdel & _).
  destruct (Hdel "clerk_1") as (_ & Hlog & _ & _ & _ & _ & Hraced & _).
  destruct (Hget "clerk_1") as (_ & _ & Hr & _).
  split; [exact Hlog|]. split; [exact Hraced|exact Hr].
Defined.

(** Against C8 as stated: deleteUser, on a store holding the user and with
    nothing failing, issues two document operations, not one. *)
Lemma deleteUser_issues_two_operations :
  acquires Samples.world = true /\
  answers 2 Samples.world = true /\
  opLog (fst (deleteUser "clerk_1" Samples.world))
  = opLog Samples.world ++ [FindOne UserModel; FindOneAndDelete UserModel] /\
  snd (deleteUser "clerk_1" Samples.world) = Normal (Value Samples.alice) /\
  length (opLog (fst (deleteUser "clerk_1" Samples.world))) <> 1%nat.
Proof.
  repeat split; try reflexivity. vm_compute. discriminate.
Qed.

End Persistence.

(** ** Checkout *)
Section Checkout.
Import Store TransactionActions.

(** C5: checkoutCredits asks the provider for one session whose single line
    item has quantity 1, currency usd and the unit price amount * 100 (the
    JavaScript product), and whose metadata are exactly plan, credits and
    buyerId; amount 10 and plan Pro give 1000 and {plan: Pro, credits: n,
    buyerId: id}.  The world is left as it was, the answer is a redirect to
    the session's url, and a provider failure comes out as the same thrown
    error. *)
Theorem checkoutCredits_session (stripe : Stripe) (env : Env)
    (t : CheckoutTransactionParams) (w : World) :
  let request := sessionParams env t in
  line_items request
  = [mkLineItem (mkPriceData "usd" (amount t * 100)%float (plan t)) 1] /\
  metadata request
  = [("plan", MStr (plan t)); ("credits", MNum (credits t));
     ("buyerId", MStr (buyerId t))] /\
  mode request = "payment" /\
  fst (checkoutCredits stripe env t w) = w /\
  (forall session,
     stripe (STRIPE_SECRET_KEY env) request = Normal session ->
     snd (checkoutCredits stripe env t w) = Normal (RedirectTo (url session))) /\
  (forall e,
     stripe (STRIPE_SECRET_KEY env) request = Throw e ->
     checkoutCredits stripe env t w = (w, Throw e)) /\
  (forall n id,
     map (fun item => (unit_amount (price_data item), quantity item))
         (line_items (sessionParams env (mkCheckout "Pro" n 10 id)))
     = [(1000%float, 1%Z)] /\
     metadata (sessionParams env (mkCheckout "Pro" n 10 id))
     = [("plan", MStr "Pro"); ("credits", MNum n); ("buyerId", MStr id)]).
Proof.
  unfold checkoutCredits, sessionParams, Number, await, bind, ret; simpl.
  repeat split.
  - destruct (stripe _ _); reflexivity.
  - intros session ->. reflexivity.
  - intros e ->. reflexivity.
Qed.

End Checkout.

(** ** The transformation form *)
Section TransformationForm.
Import Form.

Lemma get_set_same (k : string) (v : value) (o : Obj) :
  get_field k (set_field k v o) = Some v.
Proof.
  induction o as [|[k' v'] o IH]; simpl.
  - now rewrite String.eqb_refl.
  - destruct (String.eqb k' k) eqn:E; simpl; rewrite E; auto.
Qed.

Lemma get_set_other (k k' : string) (v : value) (o : Obj) :
  k' <> k -> get_field k (set_field k' v o) = get_field k o.
Proof.
  intro Hne. induction o as [|[k0 v0] o IH]; simpl.
  - destruct (String.eqb_spec k' k); [contradiction|reflexivity].
  - destruct (String.eqb_spec k0 k') as [->|H0]; simpl.
    + destruct (String.eqb_spec k' k); [contradiction|reflexivity].
    + now rewrite IH.
Qed.

Lemma get_field_fresh (k : string) (o : Obj) :
  ~ In k (map fst o) -> get_field k o = None.
Proof.
  induction o as [|[k' v'] o IH]; simpl; [reflexivity|].
  intro Hn. destruct (String.eqb_spec k' k) as [->|Hne]; [tauto|].
  apply IH. tauto.
Qed.

Lemma deepMergeObjects_objects (p c : Obj) :
  deepMergeObjects (VObj p) (VObj c) = VObj (merge_into p c).
Proof.
  reflexivity.
Qed.

(** What each key holds after the pending fields went into the committed
    ones. *)
Lemma merge_into_get (k : string) (p : Obj) :
  forall c : Obj,
    NoDup (map fst p) ->
    get_field k (merge_into p c)
    = match get_field k p, get_field k c with
      | None, held => held
      | Some v, None => if absent v then None else Some v
      | Some v, Some w => Some (deepMergeObjects v w)
      end.
Proof.
  induction p as [|[k' v] p IH]; intros c Hnd; simpl.
  - destruct (get_field k c); reflexivity.
  - inversion Hnd as [|? ? Hfresh Hnd']; subst.
    rewrite (IH _ Hnd').
    destruct (String.eqb_spec k' k) as [->|Hne].
    + rewrite (get_field_fresh k p Hfresh).
      destruct (get_field k c) as [w|] eqn:Hc.
      * now rewrite get_set_same.
      * destruct (absent v); [now rewrite Hc|now rewrite get_set_same].
    + assert (Hsame : get_field k
                        (match get_field k' c with
                         | Some w => set_field k' (deepMergeObjects v w) c
                         | None => if absent v then c else set_field k' v c
                         end) = get_field k c).
      { destruct (get_field k' c); [now apply get_set_other|].
        destruct (absent v); [reflexivity|now apply get_set_other]. }
      rewrite Hsame. reflexivity.
Qed.

(** C2: the commit step stores the deep merge of the pending configuration
    into the committed one and clears the pending configuration.  In the
    merge of two objects every key holds: the committed value when the
    pending side lacks the key (untouched branches stay); the merge of the
    two values when both sides have it; the pending value when only the
    pending side has it with a value.  A pending value that is neither an
    object nor absent wins over whatever was committed, an absent one keeps
    the committed value.  Merging {remove: {prompt: cat}} into
    {remove: {prompt: dog, removeShadow: true}, recolor: {color: red}} gives
    {remove: {prompt: cat, removeShadow: true}, recolor: {color: red}}. *)
Theorem onTransformHandler_commits_deep_merge
    (creditFee : Z) (props : Props) (st : FormState) :
  let st' := onTransformHandler creditFee props st in
  transformationConfig st'
  = deepMergeObjects (newTransformation st) (transformationConfig st) /\
  newTransformation st' = VNull /\
  isTransforming st' = true /\
  transitions st' = transitions st ++ [(userId props, creditFee)] /\
  (forall p c : Obj,
     NoDup (map fst p) ->
     exists m : Obj,
       deepMergeObjects (VObj p) (VObj c) = VObj m /\
       forall k,
         get_field k m
         = match get_field k p, get_field k c with
           | None, held => held
           | Some v, None => if absent v then None else Some v
           | Some v, Some w => Some (deepMergeObjects v w)
           end) /\
  (forall v w : value,
     absent v = false -> (forall o, v <> VObj o) -> deepMergeObjects v w = v) /\
  (forall v w : value, absent v = true -> deepMergeObjects v w = w) /\
  deepMergeObjects Samples.pending_cat Samples.committed_dog
  = Samples.merged_cat.
Proof.
  simpl. repeat split.
  - intros p c Hnd. exists (merge_into p c).
    split; [apply deepMergeObjects_objects|].
    intro k. apply merge_into_get. assumption.
  - intros v w Ha Hobj. destruct v; simpl in *; try reflexivity;
      try discriminate. exfalso. eapply Hobj. reflexivity.
  - intros v w Ha. destruct v; simpl in *; try reflexivity; discriminate.
Qed.

(** C6: the insufficient-credits modal is among the rendered children
    exactly when the balance is strictly below the absolute value of the
    fee, whatever the sign of the fee. *)
Theorem insufficient_credits_modal_iff
    (creditFee : Z) (props : Props) (st : FormState) :
  In InsufficientCreditsModal (render creditFee props st)
  <-> (creditBalance props < Z.abs creditFee)%Z.
Proof.
  unfold render.
  destruct (Z.ltb_spec (creditBalance props) (Z.abs creditFee)) as [Hlt|Hge].
  - split; [intros _; assumption|intros _; simpl; now left].
  - split; [|lia]. simpl. intros [Hin|Hin]; [discriminate|].
    exfalso.
    repeat (apply in_app_or in Hin as [Hin|Hin]);
      repeat match goal with
             | H : In _ (if ?b then _ else _) |- _ => destruct b
             | H : In _ (_ :: _) |- _ => destruct H as [H|H]; [discriminate|]
             | H : In _ [] |- _ => destruct H
             end.
Qed.

(** A keystroke that arrives before the pending timer is due replaces the
    timer and commits nothing. *)
Lemma keystroke_rearms (pg : Page) (e : Edit) :
  (now pg <= at_ e)%nat ->
  match timer pg with
  | Some (due, _) => (at_ e < due)%nat
  | None => True
  end ->
  react (keystroke pg e) = react pg /\
  timer (keystroke pg e)
  = Some (at_ e + 1000,
          inputCallback (fieldName e) (value_ e) (type_ e) field_onChange)%nat /\
  now (keystroke pg e) = at_ e.
Proof.
  intros Hnow Hdue.
  unfold keystroke, onInputChangeHandler, debounce, advance.
  destruct (timer pg) as [[due cb]|].
  - destruct (Nat.leb_spec due (at_ e)) as [Hle|Hgt]; [lia|].
    simpl. rewrite Nat.max_r by assumption. auto.
  - simpl. rewrite Nat.max_r by assumption. auto.
Qed.

(** C9: five invocations of the input handler inside one debounce window
    (the last less than 1000 ms after the first) commit nothing while the
    window is open; once 1000 ms have passed after the last one, exactly one
    callback has run, the last invocation's: the state is the initial one
    with that single pending-configuration update, field.onChange received
    the last value and only it, and no timer is left. *)
Theorem debounced_input_commits_last
    (pg : Page) (e1 e2 e3 e4 e5 : Edit) (T : nat)
    (Hidle : timer pg = None)
    (H0 : (now pg <= at_ e1)%nat)
    (H12 : (at_ e1 <= at_ e2)%nat) (H23 : (at_ e2 <= at_ e3)%nat)
    (H34 : (at_ e3 <= at_ e4)%nat) (H45 : (at_ e4 <= at_ e5)%nat)
    (Hwindow : (at_ e5 < at_ e1 + 1000)%nat)
    (Hlater : (at_ e5 + 1000 <= T)%nat) :
  let typed := keystrokes [e1; e2; e3; e4; e5] pg in
  let final := advance T typed in
  react typed = react pg /\
  react final
  = inputCallback (fieldName e5) (value_ e5) (type_ e5) field_onChange (react pg) /\
  fieldChanges (react final) = fieldChanges (react pg) ++ [value_ e5] /\
  newTransformation (react final)
  = VObj (set_field (type_ e5)
            (VObj (set_field
                     (if String.eqb (fieldName e5) "prompt" then "prompt" else "to")
                     (VStr (value_ e5))
                     (spread (prop (newTransformation (react pg)) (type_ e5)))))
            (spread (newTransformation (react pg)))) /\
  timer final = None.
Proof.
  cbv zeta. unfold keystrokes. cbn [fold_left].
  destruct (keystroke_rearms pg e1 H0) as (R1 & T1 & N1);
    [rewrite Hidle; exact I|].
  destruct (keystroke_rearms (keystroke pg e1) e2) as (R2 & T2 & N2);
    [lia|rewrite T1; lia|].
  destruct (keystroke_rearms (keystroke (keystroke pg e1) e2) e3)
    as (R3 & T3 & N3); [lia|rewrite T2; lia|].
  destruct (keystroke_rearms
              (keystroke (keystroke (keystroke pg e1) e2) e3) e4)
    as (R4 & T4 & N4); [lia|rewrite T3; lia|].
  destruct (keystroke_rearms
              (keystroke (keystroke (keystroke (keystroke pg e1) e2) e3) e4) e5)
    as (R5 & T5 & N5); [lia|rewrite T4; lia|].
  set (typed := keystroke _ e5) in *.
  assert (Hreact : react typed = react pg) by congruence.
  split; [exact Hreact|].
  unfold advance. rewrite T5.
  destruct (Nat.leb_spec (at_ e5 + 1000) T) as [_|Hgt]; [|lia].
  cbn [react timer]. rewrite Hreact. repeat split.
Qed.

(** Five keystrokes 100 ms apart: only the last value, cat, is committed. *)
Lemma debounced_input_commits_last_witness :
  fieldChanges (react (advance 1400 (keystrokes Samples.typing Samples.page)))
  = ["cat"] /\
  newTransformation (react (advance 1400 (keystrokes Samples.typing Samples.page)))
  = VObj [("remove", VObj [("prompt", VStr "cat")])].
Proof.
  pose proof (debounced_input_commits_last Samples.page
                (mkEdit 0 "prompt" "c" "remove")
                (mkEdit 100 "prompt" "ca" "remove")
                (mkEdit 200 "prompt" "cat" "remove")
                (mkEdit 300 "prompt" "cats" "remove")
                (mkEdit 400 "prompt" "cat" "remove") 1400 eq_refl) as H.
  simpl in H.
  destruct H as (_ & _ & Hfield & Hnew & _); try lia.
  split; [exact Hfield|exact Hnew].
Defined.

End TransformationForm.

(** ** One request after another on the same process *)
Section SequentialConnection.
Import Connection.

Lemma nth_error_set_nth {A} (n : nat) (x : A) (l : list A) :
  (n < length l)%nat -> nth_error (set_nth n x l) n = Some x.
Proof.
  revert n. induction l as [|h t IH]; intros [|n] Hlt; simpl in *; try lia.
  - reflexivity.
  - apply IH. lia.
Qed.

Lemma settle_settled (p : PromiseId) (d : Completion Mongoose) (s : Process) :
  (p < length (promises s))%nat ->
  nth_error (promises (settle p d s)) p
  = match nth_error (promises s) p with
    | Some Pending =>
        Some (match d with Normal m => Fulfilled m | Throw e => Rejected e end)
    | other => other
    end.
Proof.
  intro Hlt. unfold settle.
  destruct (nth_error (promises s) p) as [[| |]|] eqn:Hn; try assumption.
  simpl. now apply nth_error_set_nth.
Qed.

Lemma settle_idle (p : PromiseId) (d : Completion Mongoose) (s : Process) :
  (forall st, nth_error (promises s) p = Some st -> st <> Pending) ->
  settle p d s = s.
Proof.
  intro H. unfold settle.
  destruct (nth_error (promises s) p) as [[| |]|] eqn:Hn; try reflexivity.
  exfalso. now apply (H Pending).
Qed.

(** The state a call to connectToDatabase leaves behind answers every
    later call the same way: same completion, nothing changed, whatever
    the driver would say now. *)
Lemma connectToDatabase_again (d2 : Completion Mongoose) (s : Process)
    (r : Completion Mongoose) :
  match r with
  | Normal m => conn (cached s) = Some m
  | Throw e =>
      conn (cached s) = None /\
      (truthy (MONGODB_URL s) = None /\ e = configError \/
       exists u p, truthy (MONGODB_URL s) = Some u /\
                   promise (cached s) = Some p /\
                   nth_error (promises s) p = Some (Rejected e))
  end ->
  connectToDatabase d2 s = (s, r).
Proof.
  destruct s as [url [cn pr] ps calls].
  unfold connectToDatabase, connectToDatabase_enter. simpl.
  destruct r as [m|e].
  - intros ->. reflexivity.
  - intros [-> [[-> ->]|(u & p & -> & -> & Hn)]]; [reflexivity|].
    simpl. rewrite settle_idle; simpl.
    + rewrite Hn. reflexivity.
    + intros st Hst. rewrite Hn in Hst. injection Hst as <-. discriminate.
Qed.

Lemma connectToDatabase_post (d : Completion Mongoose) (s : Process) :
  (forall p, promise (cached s) = Some p -> (p < length (promises s))%nat) ->
  match snd (connectToDatabase d s) with
  | Normal m => conn (cached (fst (connectToDatabase d s))) = Some m
  | Throw e =>
      conn (cached (fst (connectToDatabase d s))) = None /\
      (truthy (MONGODB_URL (fst (connectToDatabase d s))) = None /\
       e = configError \/
       exists u p,
         truthy (MONGODB_URL (fst (connectToDatabase d s))) = Some u /\
         promise (cached (fst (connectToDatabase d s))) = Some p /\
         nth_error (promises (fst (connectToDatabase d s))) p
         = Some (Rejected e))
  end.
Proof.
  destruct s as [url [cn pr] ps calls]. simpl. intro Hwf.
  unfold connectToDatabase, connectToDatabase_enter. simpl.
  destruct cn as [c|]; [reflexivity|].
  destruct (truthy url) as [u|] eqn:Ht; simpl; [|rewrite Ht; auto].
  assert (Hgen : forall (p : PromiseId) (ps' : list PromiseState)
                        (calls' : list (string * ConnectOptions)),
             (p < length ps')%nat ->
             let s1 := mkProcess url (mkCached None (Some p)) ps' calls' in
             let out :=
               match nth_error (promises (settle p d s1)) p with
               | Some (Fulfilled m) =>
                   connectToDatabase_resume (settle p d s1) (Normal m)
               | Some (Rejected e) =>
                   connectToDatabase_resume (settle p d s1) (Throw e)
               | _ => connectToDatabase_resume (settle p d s1) d
               end in
             match snd out with
             | Normal m => conn (cached (fst out)) = Some m
             | Throw e =>
                 conn (cached (fst out)) = None /\
                 (truthy (MONGODB_URL (fst out)) = None /\ e = configError \/
                  exists u p,
                    truthy (MONGODB_URL (fst out)) = Some u /\
                    promise (cached (fst out)) = Some p /\
                    nth_error (promises (fst out)) p = Some (Rejected e))
             end).
  { intros p ps' calls' Hlt s1 out. subst out.
    pose proof (settle_settled p d s1 Hlt) as Hs.
    assert (Hurl : MONGODB_URL (settle p d s1) = url /\
                   cached (settle p d s1) = mkCached None (Some p)).
    { unfold settle. destruct (nth_error (promises s1) p) as [[| |]|]; auto. }
    destruct Hurl as [Hurl Hcached].
    destruct (nth_error (promises s1) p) as [[|m|e]|] eqn:Hn.
    - rewrite Hs. destruct d as [m|e]; simpl; [reflexivity|].
      rewrite Hcached, Hurl. split; [reflexivity|]. right.
      exists u, p. auto.
    - rewrite Hs. reflexivity.
    - rewrite Hs. simpl. rewrite Hcached, Hurl. split; [reflexivity|]. right.
      exists u, p. auto.
    - apply nth_error_None in Hn. simpl in Hn. lia. }
  destruct pr as [p|]; simpl.
  - apply Hgen. apply Hwf. reflexivity.
  - apply Hgen. rewrite length_app. simpl. lia.
Qed.

(** X1: calling connectToDatabase a second time gives what the first call
    gave (the same handle, or the same error) and leaves the process as the
    first call left it, whatever the driver would answer by then.  The
    cached promise, if any, must be one the driver handed out. *)
Theorem connectToDatabase_repeats (d1 d2 : Completion Mongoose) (s : Process)
    (Hwf : forall p, promise (cached s) = Some p ->
                     (p < length (promises s))%nat) :
  connectToDatabase d2 (fst (connectToDatabase d1 s)) = connectToDatabase d1 s.
Proof.
  pose proof (connectToDatabase_post d1 s Hwf) as Hpost.
  destruct (connectToDatabase d1 s) as [s1 r1] eqn:Hc. simpl in *.
  apply connectToDatabase_again. exact Hpost.
Qed.

(** A process whose first attempt is refused keeps refusing, even if the
    database is back. *)
Lemma connectToDatabase_repeats_witness :
  connectToDatabase (Normal 7)
    (fst (connectToDatabase (Throw Samples.refused) (boot Samples.url)))
  = connectToDatabase (Throw Samples.refused) (boot Samples.url) /\
  snd (connectToDatabase (Throw Samples.refused) (boot Samples.url))
  = Throw Samples.refused.
Proof.
  split; [|reflexivity].
  apply (connectToDatabase_repeats (Throw Samples.refused) (Normal 7)
           (boot Samples.url)).
  simpl. intros p Hp. discriminate Hp.
Defined.

End SequentialConnection.

(** ** How the persistence actions compose *)
Section ActionsCompose.
Import Store UserActions TransactionActions Observe.

Ltac run_action :=
  unfold try_catch, bind, ret, throw, handleError, revalidatePath,
    User_create, User_findOne, User_findOneAndUpdate, User_findByIdAndDelete,
    Transaction_create, docOp, connectToDatabase, with_process, with_users,
    JSON_roundtrip;
  simpl.

Lemma acquires_of_cached (w : World) (m : Connection.Mongoose) :
  Connection.conn (Connection.cached (process w)) = Some m ->
  acquires w = true.
Proof.
  intro Hc. unfold acquires, connectToDatabase.
  rewrite (connect_cached (driver w) (process w) m Hc). reflexivity.
Qed.

Lemma answers_two (w : World) :
  answers 2 w = true ->
  hd None (faults w) = None /\ hd None (tl (faults w)) = None.
Proof.
  unfold answers.
  destruct (faults w) as [|[e|] [|[e'|] fs]]; simpl; auto; discriminate.
Qed.

(** After createUser the connection is cached and one scripted answer is
    used up. *)
Lemma createUser_leaves (w : World) (user : CreateUserParams) :
  acquires w = true ->
  acquires (fst (createUser user w)) = true /\
  faults (fst (createUser user w)) = tl (faults w).
Proof.
  intro Hconn. destruct (acquires_inv w Hconn) as (p & m & Hc & Hcached).
  unfold createUser. run_action. rewrite Hc. simpl.
  destruct (hd None (faults w)); simpl; split; try reflexivity;
    apply (acquires_of_cached _ m); assumption.
Qed.

Lemma updateCredits_leaves (w : World) (userId : string) (d : Z) :
  acquires w = true ->
  acquires (fst (updateCredits userId d w)) = true /\
  faults (fst (updateCredits userId d w)) = tl (faults w).
Proof.
  intro Hconn. destruct (acquires_inv w Hconn) as (p & m & Hc & Hcached).
  unfold updateCredits. run_action. rewrite Hc. simpl.
  destruct (hd None (faults w)); simpl;
    [|destruct (find _ (users w)); simpl]; split; try reflexivity;
    apply (acquires_of_cached _ m); assumption.
Qed.

Lemma find_app_new (f : UserFilter) (us : list User) (u : User) :
  find (matches f) us = None -> matches f u = true ->
  find (matches f) (us ++ [u]) = Some u.
Proof.
  induction us as [|x us IH]; simpl; intros Hnone Hu.
  - now rewrite Hu.
  - destruct (matches f x); [discriminate|auto].
Qed.

(** X2: a user created under a subject id nobody had yet is what
    getUserById returns for that id right afterwards. *)
Theorem createUser_then_getUserById (w : World) (user : CreateUserParams)
    (Hconn : acquires w = true) (Hans : answers 2 w = true)
    (Hnew : find (matches (ByClerkId (cu_clerkId user))) (users w) = None) :
  snd (getUserById (cu_clerkId user) (fst (createUser user w)))
  = snd (createUser user w) /\
  exists u,
    snd (createUser user w) = Normal (Value u) /\
    clerkId u = cu_clerkId user /\
    email u = cu_email user /\
    creditBalance u = defaultCredits w.
Proof.
  destruct (answers_two w Hans) as [H1 H2].
  pose proof (createUser_run w user Hconn) as Hc. simpl in Hc.
  rewrite H1 in Hc. destruct Hc as (_ & Hr & Hus & _).
  destruct (createUser_leaves w user Hconn) as [Hconn' Hf'].
  pose proof (getUserById_run _ (cu_clerkId user) Hconn') as Hg. simpl in Hg.
  rewrite Hf', H2, Hus in Hg.
  rewrite (find_app_new (ByClerkId (cu_clerkId user)) (users w) _ Hnew) in Hg
    by (simpl; apply String.eqb_refl).
  destruct Hg as (_ & _ & Hget & _).
  split; [rewrite Hget, Hr; reflexivity|].
  eexists. split; [exact Hr|]. simpl. auto.
Qed.

Lemma find_own_id (us : list User) (u : User) :
  NoDup (map _id us) -> In u us ->
  find (matches (ById (_id u))) us = Some u.
Proof.
  induction us as [|x us IH]; simpl; [tauto|].
  intros Hnd [->|Hin].
  - now rewrite String.eqb_refl.
  - inversion Hnd as [|? ? Hfresh Hnd']; subst.
    destruct (String.eqb_spec (_id x) (_id u)) as [Heq|_]; [|auto].
    exfalso. apply Hfresh. rewrite Heq. now apply in_map.
Qed.

Lemma find_none_fresh (c : string) (us : list User) :
  ~ In c (map clerkId us) -> find (matches (ByClerkId c)) us = None.
Proof.
  induction us as [|x us IH]; simpl; [reflexivity|].
  intro Hn. destruct (String.eqb_spec (clerkId x) c); [tauto|].
  apply IH. tauto.
Qed.

(** Deleting by the id of the user found under a subject id removes that
    subject id, when ids and subject ids are unique. *)
Lemma find_after_delete (c : string) (us : list User) (u : User) :
  NoDup (map _id us) -> NoDup (map clerkId us) ->
  find (matches (ByClerkId c)) us = Some u ->
  find (matches (ByClerkId c)) (deleteFirst (ById (_id u)) us) = None.
Proof.
  induction us as [|x us IH]; simpl; [discriminate|].
  intros Hid Hck.
  inversion Hid as [|? ? Hfid Hid']; inversion Hck as [|? ? Hfck Hck']; subst.
  destruct (String.eqb_spec (clerkId x) c) as [Hc|Hc].
  - intros [= ->]. rewrite String.eqb_refl.
    apply find_none_fresh. now rewrite <- Hc.
  - intro Hfind.
    destruct (String.eqb_spec (_id x) (_id u)) as [Heq|_].
    + exfalso. apply Hfid. rewrite Heq. apply in_map.
      eapply find_some_matches; eauto.
    + simpl. destruct (String.eqb_spec (clerkId x) c); [contradiction|].
      now apply IH.
Qed.

Lemma find_other_clerk (c : string) (us : list User) (u : User) :
  NoDup (map _id us) -> In u us -> clerkId u <> c ->
  find (matches (ByClerkId c)) (deleteFirst (ById (_id u)) us)
  = find (matches (ByClerkId c)) us.
Proof.
  induction us as [|x us IH]; simpl; [tauto|].
  intros Hid Hin Hne. inversion Hid as [|? ? Hfid Hid']; subst.
  destruct (String.eqb_spec (_id x) (_id u)) as [Heq|Hneq].
  - destruct Hin as [->|Hin].
    + destruct (String.eqb_spec (clerkId u) c); [contradiction|reflexivity].
    + exfalso. apply Hfid. rewrite Heq. now apply in_map.
  - destruct Hin as [->|Hin]; [contradiction|]. simpl.
    destruct (String.eqb (clerkId x) c); [reflexivity|]. now apply IH.
Qed.

(** X3: on a store whose internal ids and subject ids are unique, a
    successful deleteUser returns the user found under the subject id,
    leaves nobody under that subject id, and leaves every other subject
    id's user in place. *)
Theorem deleteUser_removes (w : World) (clerk : string) (u : User)
    (Hconn : acquires w = true) (Hans : answers 2 w = true)
    (Hids : NoDup (map _id (users w)))
    (Hclerks : NoDup (map clerkId (users w)))
    (Hfound : find (matches (ByClerkId clerk)) (users w) = Some u) :
  let w' := fst (deleteUser clerk w) in
  snd (deleteUser clerk w) = Normal (Value u) /\
  find (matches (ByClerkId clerk)) (users w') = None /\
  (forall other, other <> clerk ->
     find (matches (ByClerkId other)) (users w')
     = find (matches (ByClerkId other)) (users w)) /\
  revalidated w' = revalidated w ++ ["/"].
Proof.
  destruct (answers_two w Hans) as [H1 H2].
  pose proof (deleteUser_run w clerk Hconn) as H. simpl in H.
  rewrite H1, Hfound, H2 in H.
  destruct H as (_ & (gone & Hg & Hr) & Hus & _ & Hrev).
  pose proof (find_some_matches _ _ _ Hfound) as Hin.
  rewrite (find_own_id _ u Hids Hin) in Hg. injection Hg as <-.
  simpl. rewrite Hus. repeat split; try assumption.
  - now apply find_after_delete.
  - intros other Hne. apply find_other_clerk; try assumption.
    apply find_some in Hfound as [_ Hm]. simpl in Hm.
    apply String.eqb_eq in Hm. congruence.
Qed.

Lemma createUser_then_getUserById_witness :
  snd (getUserById "clerk_3" (fst (createUser Fixtures.carol Fixtures.world)))
  = Normal (Value (mkUser "2" "clerk_3" "carol@example.org" "carol" "c.png" 10)).
Proof.
  destruct (createUser_then_getUserById Fixtures.world Fixtures.carol
              eq_refl eq_refl eq_refl) as [Hsame _].
  etransitivity; [exact Hsame|reflexivity].
Defined.

Lemma deleteUser_removes_witness :
  find (matches (ByClerkId "clerk_2"))
       (users (fst (deleteUser "clerk_2" Fixtures.world))) = None /\
  find (matches (ByClerkId "clerk_1"))
       (users (fst (deleteUser "clerk_2" Fixtures.world)))
  = Some Samples.alice.
Proof.
  assert (Hids : NoDup (map _id (users Fixtures.world))).
  { repeat constructor; simpl; intuition discriminate. }
  assert (Hclerks : NoDup (map clerkId (users Fixtures.world))).
  { repeat constructor; simpl; intuition discriminate. }
  destruct (deleteUser_removes Fixtures.world "clerk_2" Fixtures.bob
              eq_refl eq_refl Hids Hclerks eq_refl)
    as (_ & Hgone & Hothers & _).
  split; [exact Hgone|].
  rewrite (Hothers "clerk_1") by discriminate. reflexivity.
Defined.

Lemma updateFirst_twice (f : UserFilter) (d1 d2 : Z) (us : list User) :
  (forall u, find (matches f) us = Some u ->
             safe_sum (creditBalance u) d1 = true /\
             safe_sum (creditBalance u + d1) d2 = true) ->
  updateFirst f (Inc_creditBalance d2) (updateFirst f (Inc_creditBalance d1) us)
  = updateFirst f (Inc_creditBalance (d1 + d2)) us.
Proof.
  induction us as [|x us IH]; cbn [updateFirst find]; [reflexivity|].
  destruct (matches f x) eqn:Hm; cbn [updateFirst]; intro Hsafe.
  - rewrite (matches_applyUpdate f (Inc_creditBalance d1) x), Hm.
    destruct (Hsafe x eq_refl) as [H1 H2].
    destruct x as [i c e n ph b]. simpl in *.
    rewrite (number_add_safe b d1 H1), (number_add_safe (b + d1) d2 H2).
    f_equal. f_equal. unfold number_add. rewrite Z.add_assoc.
    symmetry. apply round_number_safe.
    unfold safe_sum in H2. apply andb_prop in H2 as [_ H2]. exact H2.
  - rewrite Hm. f_equal. apply IH. exact Hsafe.
Qed.

Lemma updateFirst_refund (f : UserFilter) (d : Z) (us : list User) :
  (forall u, find (matches f) us = Some u ->
             safe_sum (creditBalance u) d = true) ->
  updateFirst f (Inc_creditBalance (- d)) (updateFirst f (Inc_creditBalance d) us)
  = us.
Proof.
  induction us as [|x us IH]; cbn [updateFirst find]; [reflexivity|].
  destruct (matches f x) eqn:Hm; cbn [updateFirst]; intro Hsafe.
  - rewrite (matches_applyUpdate f (Inc_creditBalance d) x), Hm.
    pose proof (Hsafe x eq_refl) as H1.
    destruct x as [i c e n ph b]. simpl in *.
    rewrite (number_add_safe b d H1).
    f_equal. f_equal. unfold number_add.
    replace (b + d + - d)%Z with b by lia.
    apply round_number_safe.
    unfold safe_sum in H1. apply andb_prop in H1 as [H1 _].
    apply andb_prop in H1 as [H1 _]. exact H1.
  - rewrite Hm. f_equal. apply IH. exact Hsafe.
Qed.

Lemma updateCredits_users (w : World) (userId : string) (d : Z) :
  acquires w = true -> hd None (faults w) = None ->
  users (fst (updateCredits userId d w))
  = updateFirst (ById userId) (Inc_creditBalance d) (users w).
Proof.
  intros Hconn Hhd.
  pose proof (updateCredits_run w userId d Hconn) as H. simpl in H.
  rewrite Hhd in H. destruct H as (_ & _ & H).
  destruct (find (matches (ById userId)) (users w)) eqn:Hf.
  - tauto.
  - rewrite updateFirst_none by assumption. tauto.
Qed.

(** What JSON makes of the numbers it cannot write. *)
Lemma JSON_number_edges :
  JSON_number (- 0)%float = Some 0%float /\
  JSON_number PrimFloat.infinity = None /\
  JSON_number PrimFloat.neg_infinity = None /\
  JSON_number PrimFloat.nan = None /\
  JSON_number 40%float = Some 40%float /\
  JSON_number (-2.5)%float = Some (-2.5)%float.
Proof. repeat split; reflexivity. Qed.

(** X4: while the balance found under the id, the deltas and every sum on
    the way are safe integers, two updateCredits calls on the same id
    leave the users exactly as one call with the sum of the two deltas
    does, and a delta followed by its opposite restores every user
    document.  (Beyond the safe integers the sums are rounded and neither
    holds.) *)
Theorem updateCredits_accumulates (w : World) (userId : string) (d1 d2 : Z)
    (Hconn : acquires w = true) (Hans : answers 2 w = true)
    (Hsafe : forall u, find (matches (ById userId)) (users w) = Some u ->
                       safe_sum (creditBalance u) d1 = true /\
                       safe_sum (creditBalance u + d1) d2 = true /\
                       isSafeInteger (d1 + d2) = true) :
  users (fst (updateCredits userId d2 (fst (updateCredits userId d1 w))))
  = users (fst (updateCredits userId (d1 + d2) w)) /\
  users (fst (updateCredits userId (- d1) (fst (updateCredits userId d1 w))))
  = users w.
Proof.
  destruct (answers_two w Hans) as [H1 H2].
  destruct (updateCredits_leaves w userId d1 Hconn) as [Hconn' Hf'].
  assert (Hhd' : hd None (faults (fst (updateCredits userId d1 w))) = None)
    by (rewrite Hf'; exact H2).
  split.
  - rewrite (updateCredits_users _ userId d2 Hconn' Hhd').
    rewrite (updateCredits_users w userId d1 Hconn H1).
    rewrite (updateCredits_users w userId (d1 + d2) Hconn H1).
    apply updateFirst_twice. intros u Hu. destruct (Hsafe u Hu); tauto.
  - rewrite (updateCredits_users _ userId (- d1) Hconn' Hhd').
    rewrite (updateCredits_users w userId d1 Hconn H1).
    apply updateFirst_refund. intros u Hu. destruct (Hsafe u Hu); tauto.
Qed.

Lemma updateCredits_accumulates_witness :
  users (fst (updateCredits "0" 5 (fst (updateCredits "0" (-1) Fixtures.world))))
  = users (fst (updateCredits "0" 4 Fixtures.world)) /\
  users (fst (updateCredits "0" 1 (fst (updateCredits "0" (-1) Fixtures.world))))
  = [Samples.alice; Fixtures.bob].
Proof.
  apply (updateCredits_accumulates Fixtures.world "0" (-1) 5 eq_refl eq_refl).
  intros u Hu. injection Hu as <-. repeat split; reflexivity.
Defined.

(** X5: when the store answers, the buyer exists and the buyer's balance,
    the credits and their sum are safe integers, createTransaction stores
    the Transaction with the buyer's id and the purchased credits, raises
    the buyer's balance by exactly those credits, hands nothing to the
    error handler, and returns the JSON copy of the stored Transaction:
    the same fields, with the amount as JSON hands a number back. *)
Theorem createTransaction_grants_credits
    (w : World) (t : CreateTransactionParams) (u : User)
    (Hconn : acquires w = true) (Hans : answers 2 w = true)
    (Hbuyer : find (matches (ById (ct_buyerId t))) (users w) = Some u)
    (Hsafe : safe_sum (creditBalance u) (ct_credits t) = true) :
  let w' := fst (createTransaction t w) in
  let tx := mkTransaction (objectId (nextId w)) (ct_stripeId t) (ct_amount t)
                          (ct_plan t) (ct_credits t) (ct_buyerId t)
                          (ct_createdAt t) in
  snd (createTransaction t w)
  = Normal (Value (mkTransactionJSON
                     (objectId (nextId w)) (ct_stripeId t)
                     (JSON_number (ct_amount t)) (ct_plan t) (ct_credits t)
                     (ct_buyerId t) (ct_createdAt t))) /\
  transactions w' = transactions w ++ [tx] /\
  find (matches (ById (ct_buyerId t))) (users w')
  = Some (mkUser (_id u) (clerkId u) (email u) (username u) (photo u)
                 (creditBalance u + ct_credits t)) /\
  handled w' = handled w.
Proof.
  destruct (answers_two w Hans) as [H1 H2].
  pose proof (createTransaction_run w t Hconn) as H. simpl in H.
  rewrite H1, H2, Hbuyer in H. destruct H as (_ & Hr & Htx & Hus & Hh).
  simpl. split; [exact Hr|]. split; [exact Htx|]. split; [|exact Hh].
  rewrite Hus, find_updateFirst, Hbuyer. simpl.
  rewrite (number_add_safe _ _ Hsafe). reflexivity.
Qed.

Lemma createTransaction_grants_credits_witness :
  find (matches (ById "1"))
       (users (fst (createTransaction Fixtures.purchase Fixtures.world)))
  = Some (mkUser "1" "clerk_2" "bob@example.org" "bob" "b.png" 103) /\
  snd (createTransaction Fixtures.purchase Fixtures.world)
  = Normal (Value (mkTransactionJSON "2" "cs_test_2" (Some 40%float)
                                     "Pro Package" 100 "1" 0)).
Proof.
  destruct (createTransaction_grants_credits Fixtures.world Fixtures.purchase
              Fixtures.bob eq_refl eq_refl eq_refl eq_refl)
    as (Hr & _ & Hfind & _).
  split; [exact Hfind|exact Hr].
Defined.

Lemma createTransaction_disconnected (w : World) (t : CreateTransactionParams) :
  acquires w = false ->
  users (fst (createTransaction t w)) = users w /\
  transactions (fst (createTransaction t w)) = transactions w /\
  opLog (fst (createTransaction t w)) = opLog w.
Proof.
  unfold acquires, connectToDatabase, createTransaction. run_action.
  destruct (Connection.connectToDatabase (driver w) (process w)) as [p [m|e]];
    simpl; [discriminate|auto].
Qed.

(** X6: createTransaction never changes a user document without having
    stored the Transaction first: whenever the users differ afterwards, the
    new Transaction is in the store and the insert precedes the ledger's
    update in the operation log. *)
Theorem createTransaction_no_grant_without_record
    (w : World) (t : CreateTransactionParams)
    (Hchanged : users (fst (createTransaction t w)) <> users w) :
  let w' := fst (createTransaction t w) in
  transactions w'
  = transactions w
    ++ [mkTransaction (objectId (nextId w)) (ct_stripeId t) (ct_amount t)
                      (ct_plan t) (ct_credits t) (ct_buyerId t)
                      (ct_createdAt t)] /\
  opLog w' = opLog w ++ [Insert TransactionModel; FindOneAndUpdate UserModel].
Proof.
  simpl. destruct (acquires w) eqn:Hconn.
  - pose proof (createTransaction_run w t Hconn) as H. simpl in H.
    destruct (hd None (faults w)) as [e|].
    + exfalso. apply Hchanged. tauto.
    + tauto.
  - exfalso. apply Hchanged.
    apply (createTransaction_disconnected w t Hconn).
Qed.

Lemma createTransaction_no_grant_without_record_witness :
  length (transactions (fst (createTransaction Fixtures.purchase Fixtures.world)))
  = 1%nat /\
  users (fst (createTransaction Fixtures.purchase Fixtures.down))
  = users Fixtures.down.
Proof.
  split; [|reflexivity].
  assert (Hchanged :
            users (fst (createTransaction Fixtures.purchase Fixtures.world))
            <> users Fixtures.world) by (vm_compute; discriminate).
  destruct (createTransaction_no_grant_without_record
              Fixtures.world Fixtures.purchase Hchanged) as [Htx _].
  rewrite Htx. reflexivity.
Defined.

(** X16: deleteUser for a subject id nobody has stops after the lookup: no
    delete is issued, no user document changes and no path is revalidated;
    the same holds when the lookup itself is rejected by the store. *)
Theorem deleteUser_unknown_subject (w : World) (clerk : string)
    (Hconn : acquires w = true)
    (Hmiss : find (matches (ByClerkId clerk)) (users w) = None
             \/ answers 1 w = false) :
  let w' := fst (deleteUser clerk w) in
  opLog w' = opLog w ++ [FindOne UserModel] /\
  users w' = users w /\
  revalidated w' = revalidated w.
Proof.
  destruct (acquires_inv w Hconn) as (p & m & Hc & _).
  simpl. unfold deleteUser. run_action. rewrite Hc. simpl.
  destruct (hd None (faults w)) as [e|] eqn:Hhd; simpl; [auto|].
  destruct Hmiss as [Hnone|Hans].
  - rewrite Hnone. simpl. auto.
  - unfold answers in Hans. destruct (faults w) as [|[e|] fs]; simpl in *;
      discriminate.
Qed.

Lemma deleteUser_unknown_subject_witness :
  users (fst (deleteUser "clerk_9" Fixtures.world)) = [Samples.alice; Fixtures.bob] /\
  revalidated (fst (deleteUser "clerk_9" Fixtures.world)) = [].
Proof.
  destruct (deleteUser_unknown_subject Fixtures.world "clerk_9" eq_refl
              (or_introl eq_refl)) as (_ & Hus & Hrev).
  split; [exact Hus|exact Hrev].
Defined.

End ActionsCompose.

(** ** Checkout amounts *)
Section CheckoutAmounts.
Import TransactionActions Amounts.
Set Warnings "-inexact-float".

Lemma exact_cents_upto : forallb exact_cents (upto 10001) = true.
Proof. vm_compute. reflexivity. Qed.

(** X7: for every whole amount from 0 to 10000 the unit price sent to the
    provider is exactly the integer number of minor units, 100 times the
    amount.  This is a property of whole amounts: the number nearest to
    19.99 gives 1998.9999999999998, which is below 1999. *)
Theorem checkoutCredits_whole_amounts_are_exact
    (env : Env) (plan : string) (credits : Z) (buyerId : string) (z : Z)
    (Hrange : (0 <= z <= 10000)%Z) :
  map (fun item => unit_amount (price_data item))
      (line_items (sessionParams env (mkCheckout plan credits (dollars z) buyerId)))
  = [dollars (100 * z)] /\
  map (fun item => unit_amount (price_data item))
      (line_items (sessionParams env (mkCheckout plan credits 19.99%float buyerId)))
  = [0x1.f3bffffffffffp+10%float] /\
  PrimFloat.ltb 0x1.f3bffffffffffp+10 (dollars 1999) = true.
Proof.
  split; [|split; reflexivity].
  unfold sessionParams. simpl. f_equal.
  apply FloatAxioms.Leibniz.eqb_spec.
  pose proof exact_cents_upto as Hall. rewrite forallb_forall in Hall.
  apply (Hall z). unfold upto. apply in_map_iff.
  exists (Z.to_nat z). split; [lia|]. apply in_seq. lia.
Qed.

Lemma checkoutCredits_whole_amounts_are_exact_witness :
  map (fun item => unit_amount (price_data item))
      (line_items (sessionParams (mkEnv None None)
                     (mkCheckout "Pro Package" 120 (dollars 40) "1")))
  = [4000%float].
Proof.
  assert (Hrange : (0 <= 40 <= 10000)%Z) by lia.
  destruct (checkoutCredits_whole_amounts_are_exact
              (mkEnv None None) "Pro Package" 120 "1" 40 Hrange)
    as [Hexact _].
  exact Hexact.
Defined.

End CheckoutAmounts.

(** ** The form's other handlers *)
Section FormHandlers.
Import Form Handlers.

(** X8: the update an input edit makes to the pending configuration sets one
    parameter of one transformation kind, prompt for the prompt field and
    to for any other field, to the typed text; every other parameter of
    that kind and every other kind keep what they held, the committed
    configuration is untouched, and the text goes to field.onChange. *)
Theorem inputCallback_sets_one_parameter
    (fieldName text kind : string) (st : FormState) :
  let key := if String.eqb fieldName "prompt" then "prompt" else "to" in
  let st' := inputCallback fieldName text kind field_onChange st in
  exists pending inner : Obj,
    newTransformation st' = VObj pending /\
    get_field kind pending = Some (VObj inner) /\
    get_field key inner = Some (VStr text) /\
    (forall k, k <> key ->
       get_field k inner
       = get_field k (spread (prop (newTransformation st) kind))) /\
    (forall k, k <> kind ->
       get_field k pending = get_field k (spread (newTransformation st))) /\
    transformationConfig st' = transformationConfig st /\
    image st' = image st /\
    fieldChanges st' = fieldChanges st ++ [text].
Proof.
  simpl. do 2 eexists. split; [reflexivity|].
  split; [apply get_set_same|]. split; [apply get_set_same|].
  split; [|split; [|auto]].
  - intros k Hk. apply get_set_other. congruence.
  - intros k Hk. apply get_set_other. congruence.
Qed.

Lemma clickApply_disables (creditFee : Z) (props : Props) (st : FormState) :
  applyDisabled (clickApply creditFee props st) = true.
Proof.
  unfold clickApply. destruct (applyDisabled st) eqn:Hd; [assumption|].
  reflexivity.
Qed.

Lemma clicks_disabled (n : nat) (creditFee : Z) (props : Props)
    (st : FormState) :
  applyDisabled st = true -> clicks n creditFee props st = st.
Proof.
  revert st. induction n as [|n IH]; intros st Hd; simpl; [reflexivity|].
  unfold clickApply. rewrite Hd. now apply IH.
Qed.

(** X9: however many times the Apply Transformation button is clicked in a
    row, the state is the one a single click leaves: the button disables
    itself, so the fee is scheduled once when the button was enabled and
    not at all when it was disabled. *)
Theorem clicks_charge_once (n : nat) (creditFee : Z) (props : Props)
    (st : FormState) :
  clicks (S n) creditFee props st = clickApply creditFee props st /\
  applyDisabled (clicks (S n) creditFee props st) = true /\
  transitions (clicks (S n) creditFee props st)
  = (if applyDisabled st then transitions st
     else transitions st ++ [(userId props, creditFee)]).
Proof.
  assert (Hone : clicks (S n) creditFee props st = clickApply creditFee props st).
  { simpl. apply clicks_disabled. apply clickApply_disables. }
  rewrite Hone. split; [reflexivity|]. split; [apply clickApply_disables|].
  unfold clickApply. destruct (applyDisabled st); reflexivity.
Qed.

(** X10: choosing an aspect ratio writes the option's aspectRatio, width
    and height into the image, keeps every other property of the image,
    and makes the transformation kind's configuration the pending one;
    field.onChange is assumed not to touch the component's state cells. *)
Theorem onSelectFieldHandler_sets_size
    (AspectRatioKey : Type) (aspectRatioOptions : AspectRatioKey -> ImageSize)
    (config : value) (key : AspectRatioKey)
    (onChangeField : AspectRatioKey -> FormState -> FormState)
    (st : FormState)
    (Hfield : forall k s,
        image (onChangeField k s) = image s /\
        newTransformation (onChangeField k s) = newTransformation s /\
        transformationConfig (onChangeField k s) = transformationConfig s) :
  let st' := onSelectFieldHandler AspectRatioKey aspectRatioOptions config
               key onChangeField st in
  exists o : Obj,
    image st' = VObj o /\
    get_field "aspectRatio" o
    = Some (VStr (size_aspectRatio (aspectRatioOptions key))) /\
    get_field "width" o = Some (VNum (size_width (aspectRatioOptions key))) /\
    get_field "height" o = Some (VNum (size_height (aspectRatioOptions key))) /\
    (forall k, k <> "aspectRatio" -> k <> "width" -> k <> "height" ->
       get_field k o = get_field k (spread (image st))) /\
    newTransformation st' = config /\
    transformationConfig st' = transformationConfig st.
Proof.
  simpl. unfold onSelectFieldHandler.
  destruct (Hfield key
              (setNewTransformation (fun _ => config)
                 (setImage
                    (fun prevImage =>
                       VObj (set_field "height"
                               (VNum (size_height (aspectRatioOptions key)))
                               (set_field "width"
                                  (VNum (size_width (aspectRatioOptions key)))
                                  (set_field "aspectRatio"
                                     (VStr (size_aspectRatio (aspectRatioOptions key)))
                                     (spread prevImage))))) st)))
    as (Hi & Hn & Hc).
  rewrite Hi, Hn, Hc. simpl. eexists. split; [reflexivity|].
  split; [|split; [|split; [|split; [|auto]]]].
  - rewrite get_set_other by discriminate.
    rewrite get_set_other by discriminate. apply get_set_same.
  - rewrite get_set_other by discriminate. apply get_set_same.
  - apply get_set_same.
  - intros k Ha Hw Hh. rewrite !get_set_other by congruence. reflexivity.
Qed.

Lemma onSelectFieldHandler_sets_size_witness :
  exists o : Obj,
    image (onSelectFieldHandler bool (fun _ => Fixtures.square)
             (VObj [("fillBackground", VBool true)]) true (fun _ s => s)
             Fixtures.uploaded) = VObj o /\
    get_field "width" o = Some (VNum 1000) /\
    get_field "publicId" o = Some (VStr "sample").
Proof.
  destruct (onSelectFieldHandler_sets_size bool (fun _ => Fixtures.square)
              (VObj [("fillBackground", VBool true)]) true (fun _ s => s)
              Fixtures.uploaded (fun k s => conj eq_refl (conj eq_refl eq_refl)))
    as (o & Hi & _ & Hw & _ & Hkeep & _).
  exists o. split; [exact Hi|]. split; [exact Hw|].
  rewrite Hkeep by discriminate. reflexivity.
Defined.

(** *** Saving the image *)

Section Saving.
Variable getCldImageUrl : Obj -> Completion string.
Variable addImage : value -> Completion value.
Variable updateImage : value -> Completion value.

Lemma submitAdd_effects (props : Props) (st : FormState) (data : Obj) :
  let added := snd (submitAdd addImage props st data) in
  (forall a, ~ In (UpdateImage a) added) /\
  (forall a, In (AddImage a) added ->
             action props = "Add" /\ a = addArgument props data) /\
  (length (filter isPersist added) <= 1)%nat /\
  (action props <> "Add" -> added = []) /\
  isSubmitting (fst (submitAdd addImage props st data)) = isSubmitting st /\
  (forall url, In (RouterPush url) added ->
     exists saved,
       addImage (addArgument props data) = Normal saved /\
       truthy saved = true /\
       url = ("/transformations/" ++ toString (prop saved "_id"))%string).
Proof.
  unfold submitAdd.
  destruct (String.eqb_spec (action props) "Add") as [Ha|Ha].
  - destruct (addImage (addArgument props data)) as [newImage|error].
    + destruct (truthy newImage) eqn:Ht; simpl; repeat split;
        try (intros; intuition congruence); try lia.
      intros url [H|[H|[H|[]]]]; try discriminate.
      injection H as <-. exists newImage. auto.
    + simpl. repeat split; try (intros; intuition congruence); try lia.
  - simpl. repeat split; try (intros; intuition congruence); try lia.
Qed.

Lemma submitUpdate_effects (props : Props) (data : Obj) :
  let updated := submitUpdate updateImage props data in
  (forall a, ~ In (AddImage a) updated) /\
  (forall a, In (UpdateImage a) updated -> action props = "Update") /\
  (length (filter isPersist updated) <= 1)%nat /\
  (action props <> "Update" -> updated = []) /\
  (forall url, In (RouterPush url) updated ->
     exists arg saved,
       updateImage arg = Normal saved /\
       truthy saved = true /\
       url = ("/transformations/" ++ toString (prop saved "_id"))%string).
Proof.
  unfold submitUpdate.
  destruct (String.eqb_spec (action props) "Update") as [Ha|Ha].
  - destruct (member (Form.data props) "_id") as [id|error].
    + destruct (updateImage (updateArgument props data id))
        as [updatedImage|error] eqn:Hu.
      * destruct (truthy updatedImage) eqn:Ht; simpl; repeat split;
          try (intros; intuition congruence); try lia.
        intros url [H|[H|[]]]; try discriminate.
        injection H as <-. eauto.
      * simpl. repeat split; try (intros; intuition congruence); try lia.
    + simpl. repeat split; try (intros; intuition congruence); try lia.
  - simpl. repeat split; try (intros; intuition congruence); try lia.
Qed.

(** X11: onSubmit calls the image actions at most once: addImage only when
    the action is Add, updateImage only when it is Update, never both, and
    neither when there is no image and no record to save. *)
Theorem onSubmit_saves_at_most_once
    (props : Props) (st : FormState) (values : FormValues) :
  let done := onSubmit getCldImageUrl addImage updateImage props st values in
  (forall a, In (AddImage a) (effects done) -> action props = "Add") /\
  (forall a, In (UpdateImage a) (effects done) -> action props = "Update") /\
  (length (filter isPersist (effects done)) <= 1)%nat /\
  (truthy (data props) || truthy (image st) = false -> effects done = []).
Proof.
  simpl. unfold onSubmit.
  destruct (truthy (data props) || truthy (image st));
    [|simpl; repeat split; try tauto; try lia].
  destruct (getCldImageUrl (cldOptions st)) as [url|e];
    [|simpl; repeat split; try tauto; try discriminate; lia].
  pose proof (submitAdd_effects props (setIsSubmitting true st)
                (imageData props st values url)) as HA.
  pose proof (submitUpdate_effects props (imageData props st values url)) as HU.
  simpl in HA, HU.
  destruct (submitAdd addImage props (setIsSubmitting true st)
              (imageData props st values url)) as [st2 added].
  simpl in *.
  destruct HA as (HA1 & HA2 & HA3 & HA4 & _).
  destruct HU as (HU1 & HU2 & HU3 & HU4 & _).
  repeat split.
  - intros a [Hin|Hin]%in_app_or; [apply (HA2 a Hin)|destruct (HU1 a Hin)].
  - intros a [Hin|Hin]%in_app_or; [destruct (HA1 a Hin)|apply (HU2 a Hin)].
  - rewrite filter_app, length_app.
    destruct (String.eqb_spec (action props) "Add") as [Ha|Ha].
    + rewrite HU4 by (rewrite Ha; discriminate). simpl. lia.
    + rewrite HA4 by assumption. simpl. lia.
  - discriminate.
Qed.

(** X12: onSubmit leaves the form submitting exactly when building the
    transformation url throws: then nothing is saved or logged and the
    error escapes; on every other path, a failing image action included,
    isSubmitting is false again and onSubmit returns. *)
Theorem onSubmit_stuck_iff_url_fails
    (props : Props) (st : FormState) (values : FormValues) :
  let done := onSubmit getCldImageUrl addImage updateImage props st values in
  match outcome done with
  | Normal _ => isSubmitting (state done) = false
  | Throw e =>
      isSubmitting (state done) = true /\ effects done = [] /\
      truthy (data props) || truthy (image st) = true /\
      getCldImageUrl (cldOptions st) = Throw e
  end /\
  (forall e,
     truthy (data props) || truthy (image st) = true ->
     getCldImageUrl (cldOptions st) = Throw e ->
     outcome done = Throw e).
Proof.
  simpl. unfold onSubmit.
  destruct (truthy (data props) || truthy (image st));
    [|simpl; split; [reflexivity|discriminate]].
  destruct (getCldImageUrl (cldOptions st)) as [url|e] eqn:Hu.
  - destruct (submitAdd addImage props (setIsSubmitting true st)
                (imageData props st values url)) as [st2 added].
    simpl. split; [reflexivity|discriminate].
  - simpl. split; [auto|]. intros e' _ [= ->]. reflexivity.
Qed.

(** X13: an Update submitted without a record to update (data is null)
    never reaches updateImage: reading the record's id throws, the error
    is logged, nothing is saved, nothing is navigated to, and the form
    stops submitting. *)
Theorem onSubmit_update_without_record
    (props : Props) (st : FormState) (values : FormValues) (url : string)
    (Haction : action props = "Update")
    (Hdata : data props = VNull)
    (Himage : truthy (image st) = true)
    (Hurl : getCldImageUrl (cldOptions st) = Normal url) :
  let done := onSubmit getCldImageUrl addImage updateImage props st values in
  effects done
  = [ConsoleLog
       (MkError "TypeError: Cannot read properties of null (reading '_id')")] /\
  isSubmitting (state done) = false /\
  outcome done = Normal tt.
Proof.
  simpl. unfold onSubmit, submitAdd, submitUpdate.
  rewrite Hdata, Himage, Hurl, Haction. simpl. auto.
Qed.

(** X14: onSubmit navigates only after an image action returned a truthy
    record, and then to /transformations/ followed by that record's id. *)
Theorem onSubmit_navigates_after_save
    (props : Props) (st : FormState) (values : FormValues) (target : string)
    (Hpush : In (RouterPush target)
                (effects (onSubmit getCldImageUrl addImage updateImage
                            props st values))) :
  exists arg saved,
    (action props = "Add" /\ addImage arg = Normal saved \/
     action props = "Update" /\ updateImage arg = Normal saved) /\
    truthy saved = true /\
    target = ("/transformations/" ++ toString (prop saved "_id"))%string.
Proof.
  unfold onSubmit in Hpush.
  destruct (truthy (data props) || truthy (image st)); [|destruct Hpush].
  destruct (getCldImageUrl (cldOptions st)) as [url|e]; [|destruct Hpush].
  pose proof (submitAdd_effects props (setIsSubmitting true st)
                (imageData props st values url)) as HA.
  pose proof (submitUpdate_effects props (imageData props st values url)) as HU.
  simpl in HA, HU.
  destruct (submitAdd addImage props (setIsSubmitting true st)
              (imageData props st values url)) as [st2 added].
  simpl in *.
  destruct HA as (_ & _ & _ & HA4 & _ & HA6).
  destruct HU as (_ & _ & _ & HU4 & HU5).
  apply in_app_or in Hpush as [Hin|Hin].
  - destruct (HA6 target Hin) as (saved & Hs & Ht & Hurl).
    exists (addArgument props (imageData props st values url)), saved.
    split; [left; split; [|assumption]|auto].
    destruct (String.eqb_spec (action props) "Add") as [Ha|Ha]; [assumption|].
    rewrite (HA4 Ha) in Hin. destruct Hin.
  - destruct (HU5 target Hin) as (arg & saved & Hs & Ht & Hurl).
    exists arg, saved. split; [right; split; [|assumption]|auto].
    destruct (String.eqb_spec (action props) "Update") as [Ha|Ha];
      [assumption|].
    rewrite (HU4 Ha) in Hin. destruct Hin.
Qed.

End Saving.

Lemma onSubmit_update_without_record_witness :
  effects (onSubmit Fixtures.cld Fixtures.save Fixtures.save
             Fixtures.update_props Fixtures.uploaded Fixtures.entered)
  = [ConsoleLog
       (MkError "TypeError: Cannot read properties of null (reading '_id')")].
Proof.
  destruct (onSubmit_update_without_record Fixtures.cld Fixtures.save
              Fixtures.save Fixtures.update_props Fixtures.uploaded
              Fixtures.entered "https://cdn.example/t/sample.png"
              eq_refl eq_refl eq_refl eq_refl) as [Heff _].
  exact Heff.
Defined.

Lemma onSubmit_navigates_after_save_witness :
  exists arg saved,
    (action Samples.props = "Add" /\ Fixtures.save arg = Normal saved \/
     action Samples.props = "Update" /\ Fixtures.save arg = Normal saved) /\
    truthy saved = true /\
    "/transformations/42"
    = ("/transformations/" ++ toString (prop saved "_id"))%string.
Proof.
  apply (onSubmit_navigates_after_save Fixtures.cld Fixtures.save Fixtures.save
           Samples.props Fixtures.uploaded Fixtures.entered
           "/transformations/42").
  simpl. right. right. left. reflexivity.
Defined.

(** *** The rendered fields *)

Lemma In_fieldNames_app (n : string) (xs ys : list Element) :
  In n (flat_map fieldNames (xs ++ ys))
  <-> In n (flat_map fieldNames xs) \/ In n (flat_map fieldNames ys).
Proof. rewrite flat_map_app. apply in_app_iff. Qed.

(** X15: the title and image fields are always on the page; the aspect
    ratio field is there exactly for the fill kind, the prompt field
    exactly for remove and recolor, the color field exactly for recolor,
    so the color field never shows without the prompt field and the aspect
    ratio field never shows beside either. *)
Theorem render_fields_by_kind (creditFee : Z) (props : Props) (st : FormState) :
  let names := flat_map fieldNames (render creditFee props st) in
  In "title" names /\ In "publicId" names /\
  (In "aspectRatio" names <-> type props = "fill") /\
  (In "prompt" names <-> type props = "remove" \/ type props = "recolor") /\
  (In "color" names <-> type props = "recolor") /\
  (In "color" names -> In "prompt" names) /\
  (In "aspectRatio" names -> ~ In "prompt" names /\ ~ In "color" names).
Proof.
  simpl. unfold render.
  assert (Hcases :
    (In "aspectRatio" (flat_map fieldNames (render creditFee props st))
       <-> type props = "fill") /\
    (In "prompt" (flat_map fieldNames (render creditFee props st))
       <-> type props = "remove" \/ type props = "recolor") /\
    (In "color" (flat_map fieldNames (render creditFee props st))
       <-> type props = "recolor")).
  { unfold render.
    destruct (creditBalance props <? Z.abs creditFee)%Z;
      destruct (String.eqb_spec (type props) "fill") as [Hf|Hf];
      destruct (String.eqb_spec (type props) "remove") as [Hr|Hr];
      destruct (String.eqb_spec (type props) "recolor") as [Hc|Hc];
      simpl; repeat split; intros; try congruence;
      repeat match goal with
             | H : _ \/ _ |- _ => destruct H
             | H : False |- _ => destruct H
             end;
      try discriminate; try congruence; auto 10. }
  fold (render creditFee props st).
  destruct Hcases as (Ha & Hp & Hc).
  split; [|split; [|split; [exact Ha|split; [exact Hp|split; [exact Hc|split]]]]].
  - unfold render. apply In_fieldNames_app. right.
    apply In_fieldNames_app. left. simpl. auto.
  - unfold render. repeat (apply In_fieldNames_app; right). simpl. auto.
  - intro H. apply Hp. right. now apply Hc.
  - intro H. apply Ha in H. split; intro H'.
    + apply Hp in H'. destruct H'; congruence.
    + apply Hc in H'. congruence.
Qed.

End FormHandlers.
